(** * Verification of the Dremio MCP client (dremio-client.ts)

    A shallow embedding of the client in [dremio-client.ts]: SQL
    validation, identifier escaping, catalog URL building, the job
    polling loop of [executeQuery], catalog search and [explainQuery].
    JavaScript strings are modelled as Rocq strings whose characters are
    the code units U+0000..U+00FF. *)

From Stdlib Require Import String Ascii List Bool ZArith Lia.
Import ListNotations.
Open Scope string_scope.

(* ------------------------------------------------------------------ *)
(** ** JavaScript string primitives *)

Module JS.

(** Characters matched by [\s] and removed by [String.prototype.trim]
    (restricted to U+0000..U+00FF): TAB, LF, VT, FF, CR, SPACE, NBSP. *)
Definition is_ws (c : ascii) : bool :=
  let n := nat_of_ascii c in
  (Nat.eqb n 9) || (Nat.eqb n 10) || (Nat.eqb n 11) || (Nat.eqb n 12)
  || (Nat.eqb n 13) || (Nat.eqb n 32) || (Nat.eqb n 160).

Fixpoint trim_start (s : string) : string :=
  match s with
  | EmptyString => EmptyString
  | String c r => if is_ws c then trim_start r else s
  end.

Fixpoint rev_str (s : string) (acc : string) : string :=
  match s with
  | EmptyString => acc
  | String c r => rev_str r (String c acc)
  end.

Definition trim_end (s : string) : string :=
  rev_str (trim_start (rev_str s EmptyString)) EmptyString.

(** [String.prototype.trim] *)
Definition trim (s : string) : string := trim_end (trim_start s).

(** [String.prototype.toLowerCase] on one code unit: A-Z and
    U+00C0..U+00DE except U+00D7 map 32 code points down. *)
Definition lower_char (c : ascii) : ascii :=
  let n := nat_of_ascii c in
  if ((65 <=? n) && (n <=? 90))%nat
     || ((192 <=? n) && (n <=? 222) && negb (Nat.eqb n 215))%nat
  then ascii_of_nat (n + 32) else c.

Fixpoint toLowerCase (s : string) : string :=
  match s with
  | EmptyString => EmptyString
  | String c r => String (lower_char c) (toLowerCase r)
  end.

(** [s.includes(t)] *)
Fixpoint includes (s t : string) : bool :=
  String.prefix t s ||
  match s with
  | EmptyString => false
  | String _ r => includes r t
  end.

(** [xs.join(sep)] *)
Definition join (sep : string) (xs : list string) : string :=
  String.concat sep xs.

End JS.

(* ------------------------------------------------------------------ *)
(** ** [isSelectQuery] *)

Module Sql.
Import JS.

Definition nl : ascii := ascii_of_nat 10.

(** First position of a LF in [s]: [Some rest] with [rest] following it. *)
Fixpoint after_nl (s : string) : option string :=
  match s with
  | EmptyString => None
  | String c r => if Ascii.eqb c nl then Some r else after_nl r
  end.

(** [s.replace(/--[^\n]*\n/g, '\n')]: at each position, a match needs
    [--] followed by a LF somewhere later; [[^\n]*] then reaches exactly
    the first LF.  [fuel] bounds the scan by the length of [s]. *)
Fixpoint replace_line_comments (fuel : nat) (s : string) : string :=
  match fuel with
  | O => s
  | S f =>
    match s with
    | EmptyString => EmptyString
    | String c r =>
      if Ascii.eqb c "-" then
        match r with
        | String "-" r' =>
          match after_nl r' with
          | Some rest => String nl (replace_line_comments f rest)
          | None => String c (replace_line_comments f r)
          end
        | _ => String c (replace_line_comments f r)
        end
      else String c (replace_line_comments f r)
    end
  end.

(** First [*/] in [s]: [Some rest] with [rest] following it (the lazy
    [[\s\S]*?] stops at the first closing delimiter). *)
Fixpoint after_close (s : string) : option string :=
  match s with
  | String "*" (String "/" r) => Some r
  | String _ r => after_close r
  | EmptyString => None
  end.

(** [s.replace(/\/\*[\s\S]*?\*\//g, '')] *)
Fixpoint replace_block_comments (fuel : nat) (s : string) : string :=
  match fuel with
  | O => s
  | S f =>
    match s with
    | EmptyString => EmptyString
    | String c r =>
      if Ascii.eqb c "/" then
        match r with
        | String "*" r' =>
          match after_close r' with
          | Some rest => replace_block_comments f rest
          | None => String c (replace_block_comments f r)
          end
        | _ => String c (replace_block_comments f r)
        end
      else String c (replace_block_comments f r)
    end
  end.

(** [/^SELECT\s/i.test(s)] *)
Definition starts_select (s : string) : bool :=
  match s with
  | String s1 (String e1 (String l1 (String e2 (String c1 (String t1 (String w _)))))) =>
    Ascii.eqb (lower_char s1) "s" && Ascii.eqb (lower_char e1) "e"
    && Ascii.eqb (lower_char l1) "l" && Ascii.eqb (lower_char e2) "e"
    && Ascii.eqb (lower_char c1) "c" && Ascii.eqb (lower_char t1) "t"
    && is_ws w
  | _ => false
  end.

(** [isSelectQuery] (part_002, lines 38-53). *)
Definition isSelectQuery (sql : string) : bool :=
  let cleaned := trim sql in
  let cleaned := replace_line_comments (String.length cleaned) cleaned in
  let cleaned := replace_block_comments (String.length cleaned) cleaned in
  let cleaned := trim cleaned in
  starts_select cleaned.

(** The contract of spec section 4.1, following its words: trim, strip
    every [--] comment up to the end of its line (or of the input),
    strip every non-nested block comment, trim again, then test for
    [SELECT] and a whitespace.  Written to be compared with
    [isSelectQuery]. *)
Fixpoint strip_line_comments_spec (s : string) : string :=
  match s with
  | String "-" (String "-" r) => skip_to_eol r
  | String c r => String c (strip_line_comments_spec r)
  | EmptyString => EmptyString
  end
with skip_to_eol (s : string) : string :=
  match s with
  | EmptyString => EmptyString
  | String c r =>
    if Ascii.eqb c nl then String nl (strip_line_comments_spec r) else skip_to_eol r
  end.

Definition strip_comments_spec (sql : string) : string :=
  let stripped := strip_line_comments_spec (trim sql) in
  trim (replace_block_comments (String.length stripped) stripped).

Definition isSelectQuery_spec (sql : string) : bool :=
  starts_select (strip_comments_spec sql).

End Sql.


(* ------------------------------------------------------------------ *)
(** ** Identifier escaping and table references *)

Module Ident.

Definition dq : ascii := ascii_of_nat 34.

(** [identifier.replace(/Q/g, QQ)] where Q is the double-quote
    character [dq]: every double quote is doubled. *)
Fixpoint double_quotes (s : string) : string :=
  match s with
  | EmptyString => EmptyString
  | String c r =>
    if Ascii.eqb c dq then String dq (String dq (double_quotes r))
    else String c (double_quotes r)
  end.

(** [escapeIdentifier] (part_002, lines 80-84). *)
Definition escapeIdentifier (identifier : string) : string :=
  String dq (double_quotes identifier ++ String dq EmptyString).

(** A JavaScript value as it can occur in a table path received from a
    tool call: only strings are valid segments. *)
Inductive jsval :=
| JStr (s : string)
| JNonString.

Inductive result (A : Type) :=
| Ok (a : A)
| Error (msg : string).
Arguments Ok {A} a.
Arguments Error {A} msg.

(** [!component || typeof component !== 'string'] *)
Definition invalid_component (component : jsval) : bool :=
  match component with
  | JStr EmptyString | JNonString => true
  | JStr _ => false
  end.

(** [this.escapeIdentifier(part)] on a checked component. *)
Definition escape_part (part : jsval) : string :=
  match part with
  | JStr s => escapeIdentifier s
  | JNonString => EmptyString
  end.

(** [buildTableReference] (part_002, lines 89-100); [None] is a null or
    undefined [tablePath]. *)
Definition buildTableReference (tablePath : option (list jsval)) : result string :=
  match tablePath with
  | None | Some [] => Error "Table path cannot be empty"
  | Some parts =>
    if existsb invalid_component parts
    then Error "Invalid table path component"
    else Ok (JS.join "." (map escape_part parts))
  end.

(** Invalid table paths, from the wording of the spec: missing, empty,
    or with an empty or non-string segment. *)
Definition invalid_table_path (tp : option (list jsval)) : Prop :=
  match tp with
  | None => True
  | Some parts => parts = [] \/ exists p, In p parts /\ (p = JStr EmptyString \/ p = JNonString)
  end.

(** Inverse of [double_quotes]: collapses each doubled [dq] to one. *)
Fixpoint collapse_quotes (s : string) : string :=
  match s with
  | String c r =>
    if Ascii.eqb c dq then
      match r with
      | String c' r' =>
        if Ascii.eqb c' dq then String dq (collapse_quotes r')
        else String c (collapse_quotes r)
      | EmptyString => s
      end
    else String c (collapse_quotes r)
  | EmptyString => EmptyString
  end.

(** Strip the outer quotes of an escaped identifier, then collapse. *)
Definition unescapeIdentifier (s : string) : string :=
  match s with
  | String _ r => collapse_quotes (substring 0 (String.length r - 1) r)
  | EmptyString => EmptyString
  end.

End Ident.

(* ------------------------------------------------------------------ *)
(** ** Catalog URLs *)

Module Url.

(** Characters left unescaped by [encodeURIComponent]:
    A-Z a-z 0-9 - _ . ! ~ * ' ( ) *)
Definition unreserved (c : ascii) : bool :=
  let n := nat_of_ascii c in
  ((65 <=? n) && (n <=? 90))%nat || ((97 <=? n) && (n <=? 122))%nat
  || ((48 <=? n) && (n <=? 57))%nat
  || existsb (Nat.eqb n) [45; 95; 46; 33; 126; 42; 39; 40; 41]%nat.

Definition hex_digit (n : nat) : ascii :=
  if (n <? 10)%nat then ascii_of_nat (48 + n) else ascii_of_nat (55 + n).

(** [%XX] with upper-case hexadecimal digits. *)
Definition pct (b : nat) : string :=
  String "%" (String (hex_digit (b / 16)) (String (hex_digit (b mod 16)) EmptyString)).

(** UTF-8 encoding of one code unit: one byte below U+0080, two above. *)
Definition encode_char (c : ascii) : string :=
  let n := nat_of_ascii c in
  if unreserved c then String c EmptyString
  else if (n <? 128)%nat then pct n
  else pct (192 + n / 64) ++ pct (128 + n mod 64).

(** [encodeURIComponent] *)
Fixpoint encodeURIComponent (s : string) : string :=
  match s with
  | EmptyString => EmptyString
  | String c r => encode_char c ++ encodeURIComponent r
  end.

(** The URL requested by [getCatalog] (part_002, lines 102-111). *)
Definition getCatalogUrl (path : option (list string)) : string :=
  match path with
  | Some ((_ :: _) as p) =>
    "/api/v3/catalog/" ++ JS.join "/" (map encodeURIComponent p)
  | _ => "/api/v3/catalog"
  end.

(** The URL requested by the older [getCatalog] of
    [src/dremio-client.ts] (lines 45-50), which encodes the joined path. *)
Definition getCatalogUrl_joined (path : option (list string)) : string :=
  let pathStr := match path with Some p => JS.join "/" p | None => EmptyString end in
  match pathStr with
  | EmptyString => "/api/v3/catalog"
  | _ => "/api/v3/catalog/" ++ encodeURIComponent pathStr
  end.

(** [s.split(sep)] for a one-character separator. *)
Fixpoint split_on (sep : ascii) (s : string) : list string :=
  match s with
  | EmptyString => [EmptyString]
  | String c r =>
    if Ascii.eqb c sep then EmptyString :: split_on sep r
    else match split_on sep r with
         | w :: ws => String c w :: ws
         | [] => [String c EmptyString]
         end
  end.

Definition slash : ascii := "/".

Fixpoint has_char (c : ascii) (s : string) : bool :=
  match s with
  | EmptyString => false
  | String d r => Ascii.eqb d c || has_char c r
  end.

End Url.


(* ------------------------------------------------------------------ *)
(** ** The client: requests, backend responses and the client monad *)

Module Client.

(** Observable effects of the client, in order: HTTP requests to the
    backend and the [setTimeout] waits of the polling loop. *)
Inductive event :=
| EvPostSql (sql : string)
| EvSleep (ms : Z)
| EvGetJob (jobId : string)
| EvGetResults (jobId : string) (limit : Z)
| EvGetCatalog (url : string).

(** A thrown [Error]: [ErrHttp] is an axios error carrying a [response]
    (message, status, JSON of the response data); [ErrPlain] any other. *)
Inductive error :=
| ErrPlain (message : string)
| ErrHttp (message status data : string).

Inductive outcome (A : Type) :=
| Done (a : A)
| Throw (e : error).
Arguments Done {A} a.
Arguments Throw {A} e.

(** [response.data] of [GET /api/v3/job/{id}]; [None] is a missing field. *)
Record job_status := {
  jobState : option string;
  errorMessage : option string;
  queryError : option string
}.

(** A result row, as [Object.values(row)]: [None] is null or undefined. *)
Definition row := list (option string).

(** [response.data] of [GET /api/v3/job/{id}/results]. *)
Record results_data := {
  rd_schema : option (list (string * string));
  rd_rowCount : option Z;
  rd_rows : option (list row)
}.

Record TableSchema := { ts_name : string; ts_type : string }.

Record QueryResult := {
  rowCount : Z;
  schema : list TableSchema;
  rows : list row
}.

Inductive http (A : Type) :=
| HttpOk (data : A)
| HttpFail (e : error).
Arguments HttpOk {A} data.
Arguments HttpFail {A} e.

(** The backend as an oracle: [get_job jobId k] answers the [k]-th poll
    of the job, so the job's state may change from poll to poll. *)
Record backend := {
  post_sql : string -> http string;
  get_job : string -> nat -> http job_status;
  get_results : string -> Z -> http results_data
}.

(** State-and-error monad over the trace of events. *)
Definition M (A : Type) := list event -> list event * outcome A.

Definition ret {A} (a : A) : M A := fun tr => (tr, Done a).
Definition throw {A} (e : error) : M A := fun tr => (tr, Throw e).
Definition bind {A B} (m : M A) (k : A -> M B) : M B :=
  fun tr => match m tr with
            | (tr', Done a) => k a tr'
            | (tr', Throw e) => (tr', Throw e)
            end.
Definition emit (e : event) : M unit := fun tr => ((tr ++ [e])%list, Done tt).
Definition catch {A} (m : M A) (h : error -> M A) : M A :=
  fun tr => match m tr with
            | (tr', Throw e) => h e tr'
            | r => r
            end.
Definition of_http {A} (r : http A) : M A :=
  match r with HttpOk a => ret a | HttpFail e => throw e end.

Notation "x <- m ;; k" := (bind m (fun x => k))
  (at level 61, m at next level, right associativity).
Notation "m ;;; k" := (bind m (fun _ => k))
  (at level 61, right associativity).

Definition run {A} (m : M A) : list event * outcome A := m [].

Definition default {A} (d : A) (o : option A) : A :=
  match o with Some a => a | None => d end.

(** The [QueryResult] built from the results page: missing fields
    default to zero or empty ([|| 0], [|| []]). *)
Definition to_result (data : results_data) : QueryResult :=
  {| rowCount := default 0%Z (rd_rowCount data);
     schema := map (fun f => {| ts_name := fst f; ts_type := snd f |})
                   (default [] (rd_schema data));
     rows := default [] (rd_rows data) |}.

Section Execute.
Variable b : backend.

Definition state_is (st : option string) (s : string) : bool :=
  match st with Some s' => String.eqb s' s | None => false end.

(** [jobState === 'RUNNING' || ... === 'STARTING' || ... === 'ENQUEUED'] *)
Definition in_flight (st : option string) : bool :=
  state_is st "RUNNING" || state_is st "STARTING" || state_is st "ENQUEUED".

Definition is_failed (st : option string) : bool :=
  state_is st "FAILED" || state_is st "CANCELED".

(** [`${jobState}`] *)
Definition show_state (st : option string) : string :=
  match st with Some s => s | None => "undefined" end.

(** The message of the error thrown on FAILED or CANCELED:
    [errorMessage || 'Unknown error'] and [queryError || ''] are
    truthiness tests, so an empty string counts as absent. *)
Definition failure_message (js : job_status) : string :=
  let msg := match errorMessage js with
             | Some ((String _ _) as m) => m
             | _ => "Unknown error"
             end in
  let details := match queryError js with
                 | Some ((String _ _) as q) => ". Details: " ++ q
                 | _ => EmptyString
                 end in
  "Query failed with state: " ++ show_state (jobState js) ++ ". Error: "
  ++ msg ++ details.

Definition maxAttempts : nat := 30.

(** The [while] loop of [executeQuery] (part_002, lines 136-153).
    [remaining] is [maxAttempts - attempts]; the guard
    [attempts >= maxAttempts] is [remaining = 0]. *)
Fixpoint poll_loop (jobId : string) (remaining attempts : nat)
    (jobState0 : option string) : M (option string) :=
  if in_flight jobState0 then
    match remaining with
    | O => throw (ErrPlain "Query timeout")
    | S r =>
      emit (EvSleep 1000) ;;;
      emit (EvGetJob jobId) ;;;
      js <- of_http (get_job b jobId attempts) ;;
      if is_failed (jobState js) then throw (ErrPlain (failure_message js))
      else poll_loop jobId r (S attempts) (jobState js)
    end
  else ret jobState0.


(** The [catch] clause: errors with a [response] are re-thrown with the
    status and data, others unchanged. *)
Definition wrap_error (e : error) : error :=
  match e with
  | ErrHttp m st d =>
    ErrPlain ("Query failed: " ++ m ++ ". Status: " ++ st ++ ". Data: " ++ d)
  | ErrPlain m => ErrPlain m
  end.

Definition rethrow {A} (e : error) : M A := throw (wrap_error e).

(** [executeQuery] (part_002, lines 120-181). *)
Definition executeQuery (sql : string) (maxRows : Z) : M QueryResult :=
  catch (
    let limitedMaxRows := Z.min maxRows 500 in
    emit (EvPostSql sql) ;;;
    jobId <- of_http (post_sql b sql) ;;
    st <- poll_loop jobId maxAttempts 0 (Some "RUNNING") ;;
    if negb (state_is st "COMPLETED")
    then throw (ErrPlain ("Query failed with state: " ++ show_state st))
    else
      emit (EvGetResults jobId limitedMaxRows) ;;;
      data <- of_http (get_results b jobId limitedMaxRows) ;;
      ret (to_result data))
    rethrow.

(** [Object.values(row).join(' ')]: null and undefined print as empty. *)
Definition row_text (r : row) : string :=
  JS.join " " (map (default EmptyString) r).

(** [explainQuery] (part_002, lines 230-243). *)
Definition explainQuery (sql : string) : M string :=
  if negb (Sql.isSelectQuery sql)
  then throw (ErrPlain "Only SELECT queries can be explained")
  else
    result <- executeQuery ("EXPLAIN PLAN FOR " ++ sql) 500 ;;
    ret (JS.join (String Sql.nl EmptyString) (map row_text (rows result))).

End Execute.

(** One iteration of the loop: a wait and a job-status request. *)
Definition poll_round (jobId : string) : list event := [EvSleep 1000; EvGetJob jobId].

Definition is_job_fetch (e : event) : bool :=
  match e with EvGetJob _ => true | _ => false end.

Definition is_request (e : event) : bool :=
  match e with EvSleep _ => false | _ => true end.

End Client.

(* ------------------------------------------------------------------ *)
(** ** Catalog search *)

Module Search.
Local Open Scope list_scope.
Local Set Warnings "-register-all".

(** A path segment as a JavaScript value: a string, a falsy non-string
    (null, undefined, 0, false) or a truthy non-string (a number, an
    object), which has no [toLowerCase]. *)
Inductive segment :=
| SStr (s : string)
| SFalsy
| STruthy.

(** A catalog entity as received: [path] and [children] are [None] when
    the field is missing or not an array. *)
Inductive entity :=
| Entity (id : string) (path : option (list segment)) (children : option (list entity)).

Definition path (e : entity) : option (list segment) :=
  match e with Entity _ p _ => p end.

(** [GET /api/v3/catalog] data: a bare entity, or an object whose truthy
    [data] field holds an array of entities or a single entity. *)
Inductive catalog_data :=
| DataList (l : list entity)
| DataEntity (e : entity).

Inductive root_response :=
| Bare (e : entity)
| Envelope (d : catalog_data).

(** [entity.path[entity.path.length - 1] || ''] followed by
    [name.toLowerCase()]: [None] is the TypeError thrown when [name] is
    a truthy non-string. *)
Definition lowered_name (segs : list segment) : option string :=
  match last segs SFalsy with
  | SStr s => Some (JS.toLowerCase s)
  | SFalsy => Some EmptyString
  | STruthy => None
  end.

(** [for (const child of children) f(child)], threading [results]
    and stopping at the first thrown error. *)
Fixpoint for_each (f : entity -> list entity -> option (list entity))
    (cs : list entity) (acc : list entity) : option (list entity) :=
  match cs with
  | [] => Some acc
  | c :: cs' =>
    match f c acc with
    | Some acc' => for_each f cs' acc'
    | None => None
    end
  end.

(** [searchRecursive] (part_002, lines 194-208), pushing onto [results];
    [None] is a thrown TypeError.  [needle] is [searchTerm.toLowerCase()]. *)
Fixpoint searchRecursive (needle : string) (e : entity) (results : list entity)
    : option (list entity) :=
  match e with
  | Entity _ p ch =>
    let pushed :=
      match p with
      | Some ((_ :: _) as segs) =>
        match lowered_name segs with
        | Some name => if JS.includes name needle then Some (results ++ [e]) else Some results
        | None => None
        end
      | _ => Some results
      end in
    match pushed with
    | None => None
    | Some results' =>
      match ch with
      | Some cs => for_each (searchRecursive needle) cs results'
      | None => Some results'
      end
    end
  end.

Definition search_all (needle : string) (es : list entity) (results : list entity)
    : option (list entity) :=
  for_each (searchRecursive needle) es results.

(** [searchCatalog] (part_002, lines 189-221) after the root catalog
    has been fetched: [catalogData = rootCatalog.data || [rootCatalog]]. *)
Definition searchCatalog (rootCatalog : root_response) (searchTerm : string)
    : option (list entity) :=
  let needle := JS.toLowerCase searchTerm in
  match rootCatalog with
  | Bare e => search_all needle [e] []
  | Envelope (DataList es) => search_all needle es []
  | Envelope (DataEntity e) => searchRecursive needle e []
  end.

(** Depth-first pre-order listing of a tree. *)
Fixpoint dfs (e : entity) : list entity :=
  match e with
  | Entity _ _ (Some cs) => e :: flat_map dfs cs
  | Entity _ _ None => [e]
  end.

Definition roots (r : root_response) : list entity :=
  match r with
  | Bare e | Envelope (DataEntity e) => [e]
  | Envelope (DataList es) => es
  end.

Definition traversal (r : root_response) : list entity := flat_map dfs (roots r).

(** Case-insensitive prefix and substring tests, character by character. *)
Fixpoint ci_prefix (t s : string) : bool :=
  match t, s with
  | EmptyString, _ => true
  | String c t', String d s' =>
    Ascii.eqb (JS.lower_char c) (JS.lower_char d) && ci_prefix t' s'
  | String _ _, EmptyString => false
  end.

Fixpoint ci_contains (s t : string) : bool :=
  ci_prefix t s || match s with EmptyString => false | String _ s' => ci_contains s' t end.

(** The spec's selection: a non-empty path whose last segment contains
    the term, ignoring case. *)
Definition matches (term : string) (e : entity) : bool :=
  match path e with
  | Some ((_ :: _) as segs) =>
    match last segs SFalsy with
    | SStr s => ci_contains s term
    | _ => false
    end
  | _ => false
  end.

(** The [CatalogEntity] typing of [path : string[]], on the one place
    the search relies on it: a non-empty path ends in a string. *)
Definition last_is_string (e : entity) : bool :=
  match path e with
  | Some ((_ :: _) as segs) =>
    match last segs SFalsy with SStr _ => true | _ => false end
  | _ => true
  end.

(** A property of every child of an entity. *)
Definition children_hold (P : entity -> Prop) (ch : option (list entity)) : Prop :=
  match ch with Some cs => Forall P cs | None => True end.

End Search.

(* ------------------------------------------------------------------ *)
(** ** Operations built on [executeQuery], and the MCP tool handler *)

Module Server.
Import Client.

(** The backend seen by the whole server: the query endpoints, and the
    catalog endpoint answering a URL with the catalog data. *)
Record server_backend := {
  sb_client : backend;
  get_catalog : string -> http Search.root_response
}.

(** A thrown validation error of [buildTableReference]. *)
Definition of_result {A} (r : Ident.result A) : M A :=
  match r with
  | Ident.Ok a => ret a
  | Ident.Error m => throw (ErrPlain m)
  end.

(** The TypeError of [name.toLowerCase()] on a non-string name. *)
Definition toLowerCase_type_error : string := "name.toLowerCase is not a function".

Section Operations.
Variable sb : server_backend.

(** [getCatalog] (part_002, lines 102-111). *)
Definition getCatalog (path : option (list string)) : M Search.root_response :=
  let url := Url.getCatalogUrl path in
  emit (EvGetCatalog url) ;;;
  of_http (get_catalog sb url).

(** [getTableSchema] (part_002, lines 113-118); [maxRows] defaults to 500. *)
Definition getTableSchema (tablePath : list Ident.jsval) : M (list TableSchema) :=
  tableRef <- of_result (Ident.buildTableReference (Some tablePath)) ;;
  result <- executeQuery (sb_client sb) ("SELECT * FROM " ++ tableRef ++ " LIMIT 0") 500 ;;
  ret (schema result).

(** [previewTable] (part_002, lines 183-187). *)
Definition previewTable (tablePath : list Ident.jsval) : M QueryResult :=
  tableRef <- of_result (Ident.buildTableReference (Some tablePath)) ;;
  executeQuery (sb_client sb) ("SELECT * FROM " ++ tableRef ++ " LIMIT 10") 10.

(** [searchCatalog] (part_002, lines 189-221), with the root fetch. *)
Definition searchCatalog (searchTerm : string) : M (list Search.entity) :=
  rootCatalog <- getCatalog None ;;
  match Search.searchCatalog rootCatalog searchTerm with
  | Some results => ret results
  | None => throw (ErrPlain toLowerCase_type_error)
  end.

End Operations.

(** [args.table_path]: an array of values, or a value that is not an
    array ([Array.isArray] fails); [None] is a missing argument. *)
Inductive table_path_arg :=
| TPArray (parts : list Ident.jsval)
| TPNotArray.

(** The tool arguments read by the handler; [None] is undefined. *)
Record tool_args := {
  arg_path : option (list string);
  arg_table_path : option table_path_arg;
  arg_sql : option string;
  arg_max_rows : option Z;
  arg_search_term : option string
}.

(** What [JSON.stringify(result, null, 2)] is applied to. *)
Inductive payload :=
| PCatalog (r : Search.root_response)
| PSchema (s : list TableSchema)
| PQuery (r : QueryResult)
| PSearch (l : list Search.entity).

(** A tool response: JSON text of a payload, plain text (explain), or an
    error text with [isError: true]. *)
Inductive tool_response :=
| ToolJson (p : payload)
| ToolText (text : string)
| ToolError (text : string).

(** [error.message]: both kinds of error are [Error] instances. *)
Definition error_message (e : error) : string :=
  match e with ErrPlain m => m | ErrHttp m _ _ => m end.

(** A string argument as a truthiness test sees it: [''] is falsy. *)
Definition truthy_string (o : option string) : option string :=
  match o with Some ((String _ _) as s) => Some s | _ => None end.

(** [Math.min(args?.max_rows || 1000, 1000)] *)
Definition tool_max_rows (max_rows : option Z) : Z :=
  Z.min (match max_rows with Some n => if Z.eqb n 0 then 1000 else n | None => 1000 end) 1000.

Section Handler.
Variable sb : server_backend.

Definition require_table_path (tp : option table_path_arg) : M (list Ident.jsval) :=
  match tp with
  | Some (TPArray parts) => ret parts
  | _ => throw (ErrPlain "table_path is required and must be an array")
  end.

(** The [CallToolRequestSchema] handler (part_001, lines 130-234). *)
Definition callTool (name : string) (args : tool_args) : M tool_response :=
  catch (
    if String.eqb name "catalog_browse" then
      result <- getCatalog sb (arg_path args) ;;
      ret (ToolJson (PCatalog result))
    else if String.eqb name "schema_get" then
      tablePath <- require_table_path (arg_table_path args) ;;
      s <- getTableSchema sb tablePath ;;
      ret (ToolJson (PSchema s))
    else if String.eqb name "sql_query" then
      match truthy_string (arg_sql args) with
      | None => throw (ErrPlain "sql is required")
      | Some sql =>
        if negb (Sql.isSelectQuery sql)
        then throw (ErrPlain "Only SELECT queries are allowed")
        else
          result <- executeQuery (sb_client sb) sql (tool_max_rows (arg_max_rows args)) ;;
          ret (ToolJson (PQuery result))
      end
    else if String.eqb name "table_preview" then
      tablePath <- require_table_path (arg_table_path args) ;;
      result <- previewTable sb tablePath ;;
      ret (ToolJson (PQuery result))
    else if String.eqb name "search_catalog" then
      match truthy_string (arg_search_term args) with
      | None => throw (ErrPlain "search_term is required")
      | Some searchTerm =>
        results <- searchCatalog sb searchTerm ;;
        ret (ToolJson (PSearch results))
      end
    else if String.eqb name "explain_query" then
      match truthy_string (arg_sql args) with
      | None => throw (ErrPlain "sql is required")
      | Some sql =>
        text <- explainQuery (sb_client sb) sql ;;
        ret (ToolText text)
      end
    else throw (ErrPlain ("Unknown tool: " ++ name)))
  (fun e => ret (ToolError ("Error: " ++ error_message e))).

End Handler.

End Server.

(* ------------------------------------------------------------------ *)
(** ** Concrete inputs *)

Module Fixtures.
Import Client.

Definition three_rows : list row := [[Some "1"]; [Some "2"]; [Some "3"]].

Definition completed : job_status :=
  {| jobState := Some "COMPLETED"; errorMessage := None; queryError := None |}.

(** A backend whose results page ignores the requested limit. *)
Definition unbounded_backend : backend :=
  {| post_sql := fun _ => HttpOk "job-1";
     get_job := fun _ _ => HttpOk completed;
     get_results := fun _ _ =>
       HttpOk {| rd_schema := Some [("n", "INTEGER")]; rd_rowCount := Some 3%Z;
                 rd_rows := Some three_rows |} |}.

(** A backend serving at most [limit] rows, refusing a negative limit. *)
Definition limited_backend : backend :=
  {| post_sql := fun _ => HttpOk "job-1";
     get_job := fun _ _ => HttpOk completed;
     get_results := fun _ lim =>
       if (lim <? 0)%Z
       then HttpFail (ErrHttp "Request failed with status code 400" "400" "{}")
       else HttpOk {| rd_schema := Some [("n", "INTEGER")]; rd_rowCount := Some 3%Z;
                      rd_rows := Some (firstn (Z.to_nat lim) three_rows) |} |}.

(** A job that never leaves RUNNING. *)
Definition running_backend : backend :=
  {| post_sql := fun _ => HttpOk "job-2";
     get_job := fun _ _ =>
       HttpOk {| jobState := Some "RUNNING"; errorMessage := None; queryError := None |};
     get_results := fun _ _ =>
       HttpOk {| rd_schema := None; rd_rowCount := None; rd_rows := None |} |}.

Definition failed_status : job_status :=
  {| jobState := Some "FAILED"; errorMessage := Some "Table not found";
     queryError := Some "line 1, column 15" |}.

(** A job that is ENQUEUED at the first poll and FAILED at the second. *)
Definition failing_backend : backend :=
  {| post_sql := fun _ => HttpOk "job-3";
     get_job := fun _ k =>
       match k with
       | O => HttpOk {| jobState := Some "ENQUEUED"; errorMessage := None; queryError := None |}
       | _ => HttpOk failed_status
       end;
     get_results := fun _ _ =>
       HttpOk {| rd_schema := None; rd_rowCount := None; rd_rows := None |} |}.

Import Search.

Definition sales : entity := Search.Entity "2" (Some [SStr "src"; SStr "Sales"]) None.
Definition wholesale : entity := Search.Entity "4" (Some [SStr "wholesale"]) None.

(** An envelope whose first entity has no path and an empty-path child. *)
Definition catalog : root_response :=
  Envelope (DataList [Search.Entity "1" None (Some [sales; Search.Entity "3" (Some []) None]);
                      wholesale]).

(** A server whose query endpoints honour the page limit and whose
    catalog endpoint serves [catalog]. *)
Definition demo_server : Server.server_backend :=
  {| Server.sb_client := limited_backend; Server.get_catalog := fun _ => HttpOk catalog |}.

(** Tool arguments with every field missing. *)
Definition no_args : Server.tool_args :=
  {| Server.arg_path := None; Server.arg_table_path := None; Server.arg_sql := None;
     Server.arg_max_rows := None; Server.arg_search_term := None |}.

(** Tool arguments carrying only [sql]. *)
Definition sql_args (sql : string) : Server.tool_args :=
  {| Server.arg_path := None; Server.arg_table_path := None; Server.arg_sql := Some sql;
     Server.arg_max_rows := None; Server.arg_search_term := None |}.

End Fixtures.

(* ================================================================== *)
(** * Properties *)

(* ------------------------------------------------------------------ *)
(** ** Identifier escaping *)

Module IdentProofs.
Import Ident.

Lemma collapse_double (s : string) : collapse_quotes (double_quotes s) = s.
Proof.
  induction s as [|c r IH]; [reflexivity|].
  simpl. destruct (Ascii.eqb c dq) eqn:Hc.
  - apply Ascii.eqb_eq in Hc. subst c. simpl. rewrite IH. reflexivity.
  - simpl. rewrite Hc. rewrite IH. reflexivity.
Qed.

Lemma substring_app_prefix (a b : string) :
  substring 0 (String.length a) (a ++ b) = a.
Proof.
  induction a as [|c a IH]; simpl.
  - destruct b; reflexivity.
  - rewrite IH. reflexivity.
Qed.

Lemma length_app_char (a : string) (c : ascii) :
  String.length (a ++ String c EmptyString) = S (String.length a).
Proof. induction a as [|d a IH]; simpl; [reflexivity | rewrite IH; reflexivity]. Qed.

Lemma unescape_escape (s : string) : unescapeIdentifier (escapeIdentifier s) = s.
Proof.
  unfold unescapeIdentifier, escapeIdentifier.
  rewrite length_app_char. simpl. rewrite Nat.sub_0_r.
  rewrite substring_app_prefix. apply collapse_double.
Qed.

Lemma existsb_bad_iff (parts : list jsval) :
  existsb invalid_component parts = true <->
  exists p, In p parts /\ (p = JStr EmptyString \/ p = JNonString).
Proof.
  rewrite existsb_exists. split; intros [p [Hin Hp]]; exists p; split; auto.
  - destruct p as [[|c s]|]; simpl in Hp; try discriminate; auto.
  - destruct Hp as [-> | ->]; reflexivity.
Qed.

Lemma all_strings (parts : list jsval) :
  existsb invalid_component parts = false ->
  exists ss, parts = map JStr ss.
Proof.
  induction parts as [|p ps IH]; simpl; intros H.
  - exists []. reflexivity.
  - apply orb_false_iff in H as [Hp Hps].
    destruct (IH Hps) as [ss ->].
    destruct p as [s|]; [|discriminate].
    exists (s :: ss). reflexivity.
Qed.

Lemma map_escape_strings (ss : list string) :
  map escape_part (map JStr ss) = map escapeIdentifier ss.
Proof. induction ss as [|s ss IH]; simpl; [reflexivity | rewrite IH; reflexivity]. Qed.

(** C9: [escapeIdentifier] is undone by stripping the outer quotes and
    collapsing each doubled quote, hence injective. *)
Theorem escapeIdentifier_roundtrip (a b : string) :
  unescapeIdentifier (escapeIdentifier a) = a /\
  (escapeIdentifier a = escapeIdentifier b <-> a = b).
Proof.
  split; [apply unescape_escape|].
  split; [|intros ->; reflexivity].
  intros H. rewrite <- (unescape_escape a), <- (unescape_escape b), H. reflexivity.
Qed.

(** C4: [buildTableReference] fails exactly on a missing or empty path
    or one with an empty or non-string segment; otherwise the path is
    made of strings and the result joins their escaped forms with [.]. *)
Theorem buildTableReference_spec (tp : option (list jsval)) :
  ((exists m, buildTableReference tp = Error m) <-> invalid_table_path tp) /\
  (forall r, buildTableReference tp = Ok r ->
     exists ss, tp = Some (map JStr ss) /\ r = JS.join "." (map escapeIdentifier ss)).
Proof.
  destruct tp as [[|p ps]|].
  - simpl. split; [split; [intros _; left; reflexivity | intros _; eexists; reflexivity]|].
    intros r H; discriminate.
  - unfold buildTableReference, invalid_table_path.
    destruct (existsb invalid_component (p :: ps)) eqn:Hb.
    + split; [|intros r H; discriminate].
      split; [intros _; right; apply existsb_bad_iff; exact Hb|intros _; eexists; reflexivity].
    + split.
      * split; [intros [m Hm]; discriminate|].
        intros [H|H]; [discriminate|].
        apply existsb_bad_iff in H. rewrite Hb in H. discriminate.
      * intros r Hr. destruct (all_strings _ Hb) as [ss Hss].
        exists ss. split; [rewrite Hss; reflexivity|].
        injection Hr as <-. rewrite <- map_escape_strings, <- Hss. reflexivity.
  - simpl. split; [split; [intros _; exact I | intros _; eexists; reflexivity]|].
    intros r H; discriminate.
Qed.

End IdentProofs.

(* ------------------------------------------------------------------ *)
(** ** Catalog URLs *)

Module UrlProofs.
Import Url.


Lemma has_char_app (c : ascii) (a b : string) :
  has_char c (a ++ b) = has_char c a || has_char c b.
Proof.
  induction a as [|d a IH]; simpl; [reflexivity|].
  rewrite IH, orb_assoc. reflexivity.
Qed.

(** Checked on all 256 code units. *)
Lemma encode_char_no_slash (c : ascii) : has_char slash (encode_char c) = false.
Proof. destruct c as [[] [] [] [] [] [] [] []]; reflexivity. Qed.

Lemma encode_no_slash (s : string) : has_char slash (encodeURIComponent s) = false.
Proof.
  induction s as [|c r IH]; simpl; [reflexivity|].
  rewrite has_char_app, encode_char_no_slash, IH. reflexivity.
Qed.

Lemma split_on_nonempty (sep : ascii) (t : string) :
  exists w ws, split_on sep t = w :: ws.
Proof.
  induction t as [|c t IH]; simpl.
  - eauto.
  - destruct (Ascii.eqb c sep); [eauto|].
    destruct IH as [w [ws ->]]. eauto.
Qed.

Lemma split_on_app (sep : ascii) (x t : string) :
  has_char sep x = false ->
  split_on sep (x ++ t) =
  match split_on sep t with
  | w :: ws => (x ++ w) :: ws
  | [] => []
  end.
Proof.
  intros Hx. induction x as [|c x IH]; simpl.
  - destruct (split_on sep t); reflexivity.
  - simpl in Hx. apply orb_false_iff in Hx as [Hc Hx].
    rewrite Hc, (IH Hx).
    destruct (split_on_nonempty sep t) as [w [ws ->]]. reflexivity.
Qed.

Lemma append_empty (x : string) : x ++ EmptyString = x.
Proof. induction x as [|c x IH]; simpl; [reflexivity | rewrite IH; reflexivity]. Qed.

Lemma split_on_no_sep (sep : ascii) (x : string) :
  has_char sep x = false -> split_on sep x = [x].
Proof.
  intros Hx. rewrite <- (append_empty x) at 1.
  rewrite (split_on_app sep x EmptyString Hx). simpl.
  rewrite append_empty. reflexivity.
Qed.

(** Joining pieces free of [sep] with [sep], then splitting on [sep],
    gives the pieces back. *)
Lemma split_on_join (sep : ascii) (xs : list string) :
  xs <> [] -> Forall (fun x => has_char sep x = false) xs ->
  split_on sep (JS.join (String sep EmptyString) xs) = xs.
Proof.
  unfold JS.join. intros Hne Hall.
  induction xs as [|x xs IH]; [congruence|].
  inversion Hall as [|? ? Hx Hxs]; subst.
  destruct xs as [|y ys].
  - simpl. apply split_on_no_sep. exact Hx.
  - change (String.concat (String sep EmptyString) (x :: y :: ys))
      with (x ++ String sep EmptyString ++ String.concat (String sep EmptyString) (y :: ys)).
    rewrite (split_on_app sep x _ Hx).
    remember (String.concat (String sep EmptyString) (y :: ys)) as rest eqn:Hrest.
    simpl. rewrite Ascii.eqb_refl.
    rewrite IH by (discriminate || exact Hxs).
    rewrite append_empty. reflexivity.
Qed.

Lemma encoded_segments_no_slash (path : list string) :
  Forall (fun x => has_char slash x = false) (map encodeURIComponent path).
Proof.
  induction path as [|p ps IH]; simpl; constructor; [apply encode_no_slash | exact IH].
Qed.

(** C2: for a non-empty path, the catalog URL is the prefix followed by
    the segments, each percent-encoded on its own, joined with [/]; no
    encoded segment contains [/], so splitting the suffix on [/] gives
    back exactly the encoded segments: every separator is a literal
    [/], none is percent-encoded. *)
Theorem getCatalogUrl_per_segment (path : list string) (Hne : path <> []) :
  getCatalogUrl (Some path) = "/api/v3/catalog/" ++ JS.join "/" (map encodeURIComponent path) /\
  split_on slash (JS.join "/" (map encodeURIComponent path)) = map encodeURIComponent path.
Proof.
  split.
  - destruct path as [|p ps]; [congruence | reflexivity].
  - apply split_on_join.
    + destruct path; [congruence | discriminate].
    + apply encoded_segments_no_slash.
Qed.

End UrlProofs.

(* ------------------------------------------------------------------ *)
(** ** The polling loop and [executeQuery] *)

Module ClientProofs.
Import Client.

Section Backend.
Variable b : backend.

Lemma app_nil_r' (tr : list event) : (tr ++ [])%list = tr.
Proof. apply app_nil_r. Qed.

(** The loop never reads the trace: running it after [tr] appends what
    it does from the empty trace. *)
Lemma poll_loop_local (jobId : string) (r a : nat) (st : option string) (tr : list event) :
  poll_loop b jobId r a st tr =
  ((tr ++ fst (poll_loop b jobId r a st []))%list, snd (poll_loop b jobId r a st [])).
Proof.
  revert a st tr. induction r as [|r IH]; intros a st tr; simpl.
  - destruct (in_flight st); simpl; rewrite app_nil_r; reflexivity.
  - destruct (in_flight st); [|simpl; rewrite app_nil_r; reflexivity].
    unfold bind, emit, of_http at 1 3. simpl.
    destruct (get_job b jobId a) as [js|e]; simpl.
    + destruct (is_failed (jobState js)); simpl.
      * rewrite <- app_assoc. reflexivity.
      * rewrite (IH (S a) (jobState js) ((tr ++ [EvSleep 1000]) ++ [EvGetJob jobId])%list).
        rewrite (IH (S a) (jobState js) [EvSleep 1000; EvGetJob jobId]).
        simpl. rewrite <- !app_assoc. reflexivity.
    + rewrite <- app_assoc. reflexivity.
Qed.


(** [executeQuery] step by step, from the empty trace. *)
Lemma executeQuery_run (sql : string) (maxRows : Z) :
  run (executeQuery b sql maxRows) =
  match post_sql b sql with
  | HttpFail e => ([EvPostSql sql], Throw (wrap_error e))
  | HttpOk jobId =>
    let (ptr, po) := poll_loop b jobId maxAttempts 0 (Some "RUNNING") [] in
    match po with
    | Throw e => ((EvPostSql sql :: ptr), Throw (wrap_error e))
    | Done st =>
      if negb (state_is st "COMPLETED")
      then ((EvPostSql sql :: ptr),
            Throw (wrap_error (ErrPlain ("Query failed with state: " ++ show_state st))))
      else ((EvPostSql sql :: ptr ++ [EvGetResults jobId (Z.min maxRows 500)])%list,
            match get_results b jobId (Z.min maxRows 500) with
            | HttpOk data => Done (to_result data)
            | HttpFail e => Throw (wrap_error e)
            end)
    end
  end.
Proof.
  unfold run, executeQuery, catch, bind, emit, of_http at 1.
  cbn -[poll_loop maxAttempts].
  destruct (post_sql b sql) as [jobId|e]; cbn -[poll_loop maxAttempts]; [|reflexivity].
  rewrite poll_loop_local.
  destruct (poll_loop b jobId maxAttempts 0 (Some "RUNNING") []) as [ptr po].
  cbn -[poll_loop maxAttempts]. destruct po as [st|e]; cbn; [|reflexivity].
  destruct (negb (state_is st "COMPLETED")); cbn; [reflexivity|].
  destruct (get_results b jobId (Z.min maxRows 500)); cbn; reflexivity.
Qed.


Lemma poll_loop_trace (jobId : string) (r a : nat) (st : option string) :
  exists n, (n <= r)%nat /\
    fst (poll_loop b jobId r a st []) = concat (repeat (poll_round jobId) n).
Proof.
  revert a st. induction r as [|r IH]; intros a st; simpl.
  - exists 0%nat. destruct (in_flight st); split; reflexivity.
  - destruct (in_flight st); [|exists 0%nat; split; [lia | reflexivity]].
    unfold bind at 1, emit at 1. simpl. unfold bind at 1, emit at 1. simpl.
    unfold bind at 1. destruct (get_job b jobId a) as [js|e]; simpl.
    + destruct (is_failed (jobState js)); simpl.
      * exists 1%nat. split; [lia | reflexivity].
      * rewrite poll_loop_local. simpl.
        destruct (IH (S a) (jobState js)) as [n [Hn Htr]].
        exists (S n). split; [lia|]. simpl. rewrite Htr. reflexivity.
    + exists 1%nat. split; [lia | reflexivity].
Qed.

Lemma in_flight_not_failed (st : option string) :
  in_flight st = true -> is_failed st = false.
Proof.
  destruct st as [s|]; [|discriminate].
  unfold in_flight, is_failed, state_is.
  intros H. repeat (apply orb_true_iff in H as [H|H]);
    apply String.eqb_eq in H; subst s; reflexivity.
Qed.

(** Every poll in flight: the loop runs out of attempts. *)
Lemma poll_loop_timeout (jobId : string) (r a : nat) (st : option string) :
  in_flight st = true ->
  (forall k, (a <= k < a + r)%nat ->
     exists js, get_job b jobId k = HttpOk js /\ in_flight (jobState js) = true) ->
  poll_loop b jobId r a st [] =
  (concat (repeat (poll_round jobId) r), Throw (ErrPlain "Query timeout")).
Proof.
  revert a st. induction r as [|r IH]; intros a st Hst Hpolls; simpl; rewrite Hst.
  - reflexivity.
  - destruct (Hpolls a) as [js [Hjs Hin]]; [lia|].
    unfold bind at 1, emit at 1. simpl. unfold bind at 1, emit at 1. simpl.
    unfold bind at 1. rewrite Hjs. simpl.
    rewrite (in_flight_not_failed _ Hin).
    rewrite poll_loop_local, (IH (S a) (jobState js) Hin); [reflexivity|].
    intros k Hk. apply Hpolls. lia.
Qed.

(** A poll answering FAILED or CANCELED, after polls in flight. *)
Lemma poll_loop_failed (jobId : string) (k : nat) (js : job_status) (r a : nat)
    (st : option string) :
  in_flight st = true -> (a <= k < a + r)%nat ->
  (forall i, (a <= i < k)%nat ->
     exists js', get_job b jobId i = HttpOk js' /\ in_flight (jobState js') = true) ->
  get_job b jobId k = HttpOk js -> is_failed (jobState js) = true ->
  snd (poll_loop b jobId r a st []) = Throw (ErrPlain (failure_message js)).
Proof.
  revert a st. induction r as [|r IH]; intros a st Hst Hk Hpolls Hjs Hfail; [lia|].
  simpl. rewrite Hst.
  unfold bind at 1, emit at 1. simpl. unfold bind at 1, emit at 1. simpl.
  unfold bind at 1.
  destruct (Nat.eq_dec a k) as [->|Hne].
  - rewrite Hjs. simpl. rewrite Hfail. reflexivity.
  - destruct (Hpolls a) as [js' [Hjs' Hin]]; [lia|].
    rewrite Hjs'. simpl. rewrite (in_flight_not_failed _ Hin).
    rewrite poll_loop_local. simpl.
    apply IH; auto; [lia|]. intros i Hi. apply Hpolls. lia.
Qed.

End Backend.

(** String facts used on error messages. *)
Lemma str_prefix_app (t s : string) : String.prefix t (t ++ s) = true.
Proof.
  induction t as [|c t IH]; simpl; [destruct s; reflexivity|].
  destruct (ascii_dec c c); [exact IH | congruence].
Qed.

Lemma includes_of_prefix (s t : string) :
  String.prefix t s = true -> JS.includes s t = true.
Proof. destruct s; simpl; intros H; rewrite H; reflexivity. Qed.

Lemma includes_start (t s : string) : JS.includes (t ++ s) t = true.
Proof. apply includes_of_prefix, str_prefix_app. Qed.

Lemma includes_after (p s t : string) :
  JS.includes s t = true -> JS.includes (p ++ s) t = true.
Proof.
  intros H. induction p as [|c p IH]; [exact H|].
  simpl. rewrite IH. apply orb_true_r.
Qed.

Lemma includes_empty (s : string) : JS.includes s EmptyString = true.
Proof. destruct s; reflexivity. Qed.

Lemma includes_refl (t : string) : JS.includes t t = true.
Proof.
  rewrite <- (UrlProofs.append_empty t) at 1. apply includes_start.
Qed.


Lemma rounds_job_fetches (jobId : string) (n : nat) :
  length (filter is_job_fetch (concat (repeat (poll_round jobId) n))) = n.
Proof. induction n as [|n IH]; simpl; [reflexivity | rewrite IH; reflexivity]. Qed.

Lemma rounds_requests (jobId : string) (n : nat) :
  length (filter is_request (concat (repeat (poll_round jobId) n))) = n.
Proof. induction n as [|n IH]; simpl; [reflexivity | rewrite IH; reflexivity]. Qed.

Lemma in_rounds (jobId : string) (n : nat) (e : event) :
  In e (concat (repeat (poll_round jobId) n)) -> e = EvSleep 1000 \/ e = EvGetJob jobId.
Proof.
  induction n as [|n IH]; simpl; [tauto|].
  intros [H|[H|H]]; auto.
Qed.

(** The trace of [executeQuery]: the submission, whole polling rounds,
    then possibly the results request. *)
Lemma executeQuery_trace (b : backend) (sql : string) (maxRows : Z) :
  exists rest, fst (run (executeQuery b sql maxRows)) = EvPostSql sql :: rest /\
    ((rest = [] \/ exists jobId n, (n <= maxAttempts)%nat /\
       (rest = concat (repeat (poll_round jobId) n)
        \/ rest = (concat (repeat (poll_round jobId) n)
                   ++ [EvGetResults jobId (Z.min maxRows 500)])%list))).
Proof.
  rewrite executeQuery_run.
  destruct (post_sql b sql) as [jobId|e]; [|exists []; auto].
  destruct (poll_loop_trace b jobId maxAttempts 0 (Some "RUNNING")) as [n [Hn Htr]].
  destruct (poll_loop b jobId maxAttempts 0 (Some "RUNNING") []) as [ptr po].
  simpl in Htr. subst ptr.
  destruct po as [st|e]; simpl.
  - destruct (negb (state_is st "COMPLETED")); simpl;
      eexists; split; [reflexivity | | reflexivity | ]; right; exists jobId, n; auto.
  - eexists; split; [reflexivity|]. right; exists jobId, n; auto.
Qed.

(** ** Claims on [executeQuery] and [explainQuery] *)

(** C10: whatever the backend answers, one [executeQuery] call makes at
    most [maxAttempts] (30) job-status requests, and at most 32 HTTP
    requests in all (submission, polls, results page). *)
Theorem executeQuery_polls_bounded (b : backend) (sql : string) (maxRows : Z) :
  (length (filter is_job_fetch (fst (run (executeQuery b sql maxRows)))) <= maxAttempts)%nat /\
  (length (filter is_request (fst (run (executeQuery b sql maxRows)))) <= maxAttempts + 2)%nat.
Proof.
  destruct (executeQuery_trace b sql maxRows) as [rest [-> Hrest]].
  destruct Hrest as [->|[jobId [n [Hn [->| ->]]]]]; simpl.
  - unfold maxAttempts. lia.
  - rewrite rounds_job_fetches, rounds_requests. unfold maxAttempts in *. lia.
  - rewrite !filter_app, !length_app, rounds_job_fetches, rounds_requests. simpl.
    unfold maxAttempts in *. lia.
Qed.

(** C7: a job whose every poll answers an in-flight state makes
    [executeQuery] fail with the timeout error after [maxAttempts]
    polling rounds. *)
Theorem executeQuery_timeout (b : backend) (sql : string) (maxRows : Z) (jobId : string)
    (Hpost : post_sql b sql = HttpOk jobId)
    (Hpolls : forall k, (k < maxAttempts)%nat ->
       exists js, get_job b jobId k = HttpOk js /\ in_flight (jobState js) = true) :
  run (executeQuery b sql maxRows) =
  (EvPostSql sql :: concat (repeat (poll_round jobId) maxAttempts),
   Throw (ErrPlain "Query timeout")).
Proof.
  rewrite executeQuery_run, Hpost.
  rewrite (poll_loop_timeout b jobId maxAttempts 0 (Some "RUNNING")); [reflexivity..|].
  intros k Hk. apply Hpolls. lia.
Qed.

(** C6: a job reaching FAILED or CANCELED at a poll within the ceiling
    makes [executeQuery] fail with [failure_message], whose text holds
    the backend's [errorMessage] and its [queryError] when present. *)
Theorem executeQuery_failed (b : backend) (sql : string) (maxRows : Z) (jobId : string)
    (k : nat) (js : job_status)
    (Hpost : post_sql b sql = HttpOk jobId)
    (Hk : (k < maxAttempts)%nat)
    (Hbefore : forall i, (i < k)%nat ->
       exists js', get_job b jobId i = HttpOk js' /\ in_flight (jobState js') = true)
    (Hjs : get_job b jobId k = HttpOk js)
    (Hfail : is_failed (jobState js) = true) :
  snd (run (executeQuery b sql maxRows)) = Throw (ErrPlain (failure_message js)) /\
  (forall m, errorMessage js = Some m -> JS.includes (failure_message js) m = true) /\
  (forall q, queryError js = Some q -> JS.includes (failure_message js) q = true).
Proof.
  split; [|split].
  - rewrite executeQuery_run, Hpost.
    pose proof (poll_loop_failed b jobId k js maxAttempts 0 (Some "RUNNING")
                  eq_refl ltac:(unfold maxAttempts in *; lia) ltac:(intros i Hi; apply Hbefore; lia) Hjs Hfail) as Hp.
    destruct (poll_loop b jobId maxAttempts 0 (Some "RUNNING") []) as [ptr po].
    simpl in Hp. subst po. reflexivity.
  - intros m Hm. unfold failure_message. rewrite Hm.
    destruct m as [|c m]; [apply includes_empty|].
    do 3 apply includes_after. apply includes_start.
  - intros q Hq. unfold failure_message. rewrite Hq.
    destruct q as [|c q]; [apply includes_empty|].
    do 4 apply includes_after. apply includes_after. apply includes_refl.
Qed.

(** C5 (as amended): for every backend, the results page is requested
    with [limit = min(maxRows, 500)], never above 500; a completed query
    returns exactly the rows of the backend's answer to that request, with
    no truncation in the client; so when the backend serves at most
    [limit] rows, a completed query returns at most [min(maxRows, 500)]
    rows. *)
Theorem executeQuery_limit (b : backend) (sql : string) (maxRows : Z) :
  (forall jobId lim, In (EvGetResults jobId lim) (fst (run (executeQuery b sql maxRows))) ->
     lim = Z.min maxRows 500 /\ (lim <= 500)%Z) /\
  (forall qr, snd (run (executeQuery b sql maxRows)) = Done qr ->
     exists jobId data, get_results b jobId (Z.min maxRows 500) = HttpOk data /\
       rows qr = default [] (rd_rows data)) /\
  ((forall jobId lim data, get_results b jobId lim = HttpOk data ->
      (Z.of_nat (length (default [] (rd_rows data))) <= lim)%Z) ->
   forall qr, snd (run (executeQuery b sql maxRows)) = Done qr ->
     (Z.of_nat (length (rows qr)) <= Z.min maxRows 500)%Z).
Proof.
  assert (Hrows : forall qr, snd (run (executeQuery b sql maxRows)) = Done qr ->
     exists jobId data, get_results b jobId (Z.min maxRows 500) = HttpOk data /\
       rows qr = default [] (rd_rows data)).
  { intros qr. rewrite executeQuery_run.
    destruct (post_sql b sql) as [jobId|e]; [|discriminate].
    destruct (poll_loop b jobId maxAttempts 0 (Some "RUNNING") []) as [ptr po].
    destruct po as [st|e]; [|discriminate].
    destruct (negb (state_is st "COMPLETED")); [discriminate|].
    simpl. destruct (get_results b jobId (Z.min maxRows 500)) as [data|e] eqn:Hr;
      [|discriminate].
    intros H. injection H as <-. exists jobId, data. split; [exact Hr | reflexivity]. }
  split; [|split; [exact Hrows|]].
  - intros jobId lim Hin.
    destruct (executeQuery_trace b sql maxRows) as [rest [Htr Hrest]].
    rewrite Htr in Hin. destruct Hin as [Hin|Hin]; [discriminate|].
    destruct Hrest as [->|[j [n [Hn [->| ->]]]]]; [contradiction| |].
    + apply in_rounds in Hin. destruct Hin; discriminate.
    + apply in_app_or in Hin. destruct Hin as [Hin|[Hin|[]]].
      * apply in_rounds in Hin. destruct Hin; discriminate.
      * injection Hin as _ <-. split; [reflexivity | lia].
  - intros Hhonour qr Hdone.
    destruct (Hrows qr Hdone) as [jobId [data [Hr ->]]].
    exact (Hhonour _ _ _ Hr).
Qed.

(** C3: a non-SELECT statement fails with the validation error and an
    empty trace (no request); a SELECT runs [executeQuery] on
    [EXPLAIN PLAN FOR <sql>], whose first request posts exactly that
    text, and flattens its rows (values joined by a space, rows by a
    newline). *)
Theorem explainQuery_spec (b : backend) (sql : string) :
  run (explainQuery b sql) =
  (if Sql.isSelectQuery sql then
     (fst (run (executeQuery b ("EXPLAIN PLAN FOR " ++ sql) 500)),
      match snd (run (executeQuery b ("EXPLAIN PLAN FOR " ++ sql) 500)) with
      | Done r => Done (JS.join (String Sql.nl EmptyString) (map row_text (rows r)))
      | Throw e => Throw e
      end)
   else ([], Throw (ErrPlain "Only SELECT queries can be explained"))) /\
  hd_error (fst (run (executeQuery b ("EXPLAIN PLAN FOR " ++ sql) 500)))
  = Some (EvPostSql ("EXPLAIN PLAN FOR " ++ sql)).
Proof.
  split.
  - unfold run, explainQuery.
    destruct (Sql.isSelectQuery sql); [|reflexivity].
    cbn [negb]. unfold bind, ret. destruct (executeQuery b ("EXPLAIN PLAN FOR " ++ sql) 500 []) as [tr o].
    destruct o; reflexivity.
  - destruct (executeQuery_trace b ("EXPLAIN PLAN FOR " ++ sql) 500) as [rest [-> _]].
    reflexivity.
Qed.

End ClientProofs.

(* ------------------------------------------------------------------ *)
(** ** Catalog search *)

Module SearchProofs.
Import Search.
Local Open Scope list_scope.

(** Induction on catalog trees, with a hypothesis for every child. *)

Lemma entity_ind' (P : entity -> Prop)
    (H : forall id p ch, children_hold P ch -> P (Entity id p ch)) : forall e, P e.
Proof.
  exact (fix F (e : entity) : P e :=
    match e as e0 return P e0 with
    | Entity id p ch =>
      H id p ch
        (match ch as o return children_hold P o with
         | Some cs =>
           (fix G (cs : list entity) : Forall P cs :=
              match cs with
              | [] => Forall_nil P
              | c :: cs' => Forall_cons c (F c) (G cs')
              end) cs
         | None => I
         end)
    end).
Qed.

Lemma prefix_lower (t s : string) :
  String.prefix (JS.toLowerCase t) (JS.toLowerCase s) = ci_prefix t s.
Proof.
  revert s. induction t as [|c t IH]; intros s; [destruct s; reflexivity|].
  destruct s as [|d s]; [reflexivity|]. simpl.
  destruct (ascii_dec (JS.lower_char c) (JS.lower_char d)) as [E|E].
  - rewrite E, Ascii.eqb_refl. apply IH.
  - apply Ascii.eqb_neq in E. rewrite E. reflexivity.
Qed.

(** [name.toLowerCase().includes(searchTerm.toLowerCase())] is the
    character-wise case-insensitive substring test. *)
Lemma includes_lower (s t : string) :
  JS.includes (JS.toLowerCase s) (JS.toLowerCase t) = ci_contains s t.
Proof.
  induction s as [|c s IH].
  - destruct t; reflexivity.
  - simpl ci_contains. rewrite <- IH, <- (prefix_lower t (String c s)).
    reflexivity.
Qed.

Lemma for_each_ok (f : entity -> list entity -> option (list entity))
    (sel : entity -> bool) (cs acc : list entity) :
  Forall (fun c => forall acc, forallb last_is_string (dfs c) = true ->
                   f c acc = Some (acc ++ filter sel (dfs c))) cs ->
  forallb last_is_string (flat_map dfs cs) = true ->
  for_each f cs acc = Some (acc ++ filter sel (flat_map dfs cs)).
Proof.
  revert acc. induction cs as [|c cs IH]; intros acc Hall Hty; simpl.
  - rewrite app_nil_r. reflexivity.
  - inversion Hall as [|? ? Hc Hcs]; subst.
    simpl in Hty. rewrite forallb_app in Hty. apply andb_true_iff in Hty as [Hty1 Hty2].
    rewrite (Hc acc Hty1), (IH _ Hcs Hty2), filter_app, app_assoc. reflexivity.
Qed.

(** One tree: the search appends, in depth-first order, the entities
    of the tree selected by [matches]. *)
Lemma searchRecursive_ok (term : string) :
  forall e acc, forallb last_is_string (dfs e) = true ->
  searchRecursive (JS.toLowerCase term) e acc = Some (acc ++ filter (matches term) (dfs e)).
Proof.
  apply (entity_ind' (fun e => forall acc, forallb last_is_string (dfs e) = true ->
           searchRecursive (JS.toLowerCase term) e acc =
           Some (acc ++ filter (matches term) (dfs e)))).
  intros id p ch IHch acc Hty.
  assert (Hself : last_is_string (Entity id p ch) = true)
    by (destruct ch; simpl in Hty; apply andb_true_iff in Hty; tauto).
  assert (Hpush :
    match p with
    | Some ((_ :: _) as segs) =>
      match lowered_name segs with
      | Some name =>
        if JS.includes name (JS.toLowerCase term)
        then Some (acc ++ [Entity id p ch]) else Some acc
      | None => None
      end
    | _ => Some acc
    end = Some (acc ++ filter (matches term) [Entity id p ch])).
  { unfold last_is_string in Hself. unfold matches. simpl path in *.
    destruct p as [[|s0 segs]|]; cbn -[last]; try (rewrite app_nil_r; reflexivity).
    unfold lowered_name.
    destruct (last (s0 :: segs) SFalsy) as [s| |]; try discriminate.
    rewrite includes_lower.
    destruct (ci_contains s term); simpl; [reflexivity | rewrite app_nil_r; reflexivity]. }
  simpl searchRecursive. rewrite Hpush.
  destruct ch as [cs|].
  - simpl in Hty. apply andb_true_iff in Hty as [_ Hty].
    simpl dfs. rewrite (for_each_ok _ (matches term) cs _ IHch Hty).
    change (Entity id p (Some cs) :: flat_map dfs cs)
      with ([Entity id p (Some cs)] ++ flat_map dfs cs).
    rewrite filter_app, app_assoc. reflexivity.
  - simpl dfs. reflexivity.
Qed.

(** C8: on a catalog tree (a bare entity, or an envelope holding a list
    or an entity) whose non-empty paths end in strings, as
    [CatalogEntity] types them, [searchCatalog] throws no error and
    returns, in depth-first order, exactly the entities whose path is
    non-empty and whose last segment contains the term ignoring case;
    an entity without a path or with an empty path is never selected. *)
Theorem searchCatalog_spec (root : root_response) (term : string)
    (Htyped : forallb last_is_string (traversal root) = true) :
  searchCatalog root term = Some (filter (matches term) (traversal root)) /\
  (forall e, path e = None \/ path e = Some [] -> matches term e = false).
Proof.
  split.
  2:{ intros e [He|He]; unfold matches; rewrite He; reflexivity. }
  assert (Hall : forall cs, Forall (fun c => forall acc,
            forallb last_is_string (dfs c) = true ->
            searchRecursive (JS.toLowerCase term) c acc =
            Some (acc ++ filter (matches term) (dfs c))) cs).
  { intros cs. apply Forall_forall. intros c _. apply searchRecursive_ok. }
  destruct root as [e|[es|e]]; unfold searchCatalog, search_all, traversal in *; simpl roots in *.
  - rewrite (for_each_ok _ (matches term) [e] [] (Hall _) Htyped). reflexivity.
  - rewrite (for_each_ok _ (matches term) es [] (Hall _) Htyped). reflexivity.
  - simpl in Htyped |- *. rewrite app_nil_r in Htyped |- *.
    rewrite (searchRecursive_ok term e [] Htyped). reflexivity.
Qed.

End SearchProofs.

(* ------------------------------------------------------------------ *)
(** ** SQL validation *)

Module SqlProofs.
Import Sql.

(** C1 (divergence): a trailing [--] comment is not removed by
    [isSelectQuery], since the regular expression [--[^\n]*\n] needs a
    newline after the comment and the first [trim] has removed any
    newline at the end of the input.  On [SELECT -- c] the comment
    stripping of the spec leaves [SELECT], which is not followed by a
    whitespace, but the code sees [SELECT -- c] and accepts it. *)
Theorem isSelectQuery_trailing_line_comment :
  strip_comments_spec "SELECT -- c" = "SELECT" /\
  isSelectQuery_spec "SELECT -- c" = false /\
  isSelectQuery "SELECT -- c" = true.
Proof. split; [|split]; reflexivity. Qed.

End SqlProofs.

(* ------------------------------------------------------------------ *)
(** ** Witnesses and counterexamples *)

Module Witnesses.
Import Client ClientProofs Fixtures.

(** C5: the claim as stated fails when the backend ignores the limit:
    with [maxRows = 1] the three rows it serves are returned. *)
Lemma executeQuery_rows_exceed_limit :
  ~ (forall b sql maxRows qr, snd (run (executeQuery b sql maxRows)) = Done qr ->
       (Z.of_nat (length (rows qr)) <= Z.min maxRows 500)%Z).
Proof.
  intros H.
  assert (E : snd (run (executeQuery unbounded_backend "SELECT * FROM t" 1)) =
              Done (to_result {| rd_schema := Some [("n", "INTEGER")];
                                 rd_rowCount := Some 3%Z; rd_rows := Some three_rows |}))
    by reflexivity.
  specialize (H _ _ _ _ E). simpl in H. lia.
Qed.

Lemma executeQuery_limit_witness :
  (Z.of_nat (length (rows (to_result
     {| rd_schema := Some [("n", "INTEGER")]; rd_rowCount := Some 3%Z;
        rd_rows := Some (firstn 2 three_rows) |}))) <= Z.min 2 500)%Z.
Proof.
  apply (proj2 (proj2 (executeQuery_limit limited_backend "SELECT * FROM t" 2))).
  - intros jobId lim data Hr. simpl in Hr.
    destruct (lim <? 0)%Z eqn:Hlim; [discriminate|].
    injection Hr as <-. apply Z.ltb_ge in Hlim. simpl.
    rewrite length_firstn. simpl. lia.
  - reflexivity.
Defined.

Lemma executeQuery_timeout_witness :
  run (executeQuery running_backend "SELECT 1" 500) =
  (EvPostSql "SELECT 1" :: concat (repeat (poll_round "job-2") maxAttempts),
   Throw (ErrPlain "Query timeout")).
Proof.
  apply (executeQuery_timeout running_backend "SELECT 1" 500 "job-2"); [reflexivity|].
  intros k _. eexists. split; reflexivity.
Defined.

Lemma executeQuery_failed_witness :
  snd (run (executeQuery failing_backend "SELECT 1" 500)) =
    Throw (ErrPlain (failure_message failed_status)) /\
  JS.includes (failure_message failed_status) "Table not found" = true /\
  JS.includes (failure_message failed_status) "line 1, column 15" = true.
Proof.
  destruct (executeQuery_failed failing_backend "SELECT 1" 500 "job-3" 1 failed_status
              eq_refl ltac:(unfold maxAttempts; lia)
              ltac:(intros i Hi; assert (i = 0)%nat as -> by lia; eexists; split; reflexivity)
              eq_refl eq_refl) as [H1 [H2 H3]].
  split; [exact H1 | split; [apply H2 | apply H3]; reflexivity].
Defined.

Lemma getCatalogUrl_witness :
  Url.getCatalogUrl (Some ["a"; "b/c"]) = "/api/v3/catalog/a/b%2Fc" /\
  Url.split_on Url.slash "a/b%2Fc" = ["a"; "b%2Fc"].
Proof.
  destruct (UrlProofs.getCatalogUrl_per_segment ["a"; "b/c"] ltac:(discriminate)) as [H1 H2].
  split; [rewrite H1; reflexivity | exact H2].
Defined.

Lemma searchCatalog_witness :
  Search.searchCatalog catalog "SALE" = Some [sales; wholesale].
Proof.
  destruct (SearchProofs.searchCatalog_spec catalog "SALE" eq_refl) as [H _].
  rewrite H. reflexivity.
Defined.

End Witnesses.

(* ------------------------------------------------------------------ *)
(** ** Operations built on [executeQuery] *)

Module ServerProofs.
Import Client ClientProofs Server.

Lemma fst_bind_ret {A B} (m : M A) (f : A -> B) (tr : list event) :
  fst (bind m (fun x => ret (f x)) tr) = fst (m tr).
Proof. unfold bind, ret. destruct (m tr) as [tr' [a|e]]; reflexivity. Qed.

Lemma in_executeQuery_post (b : backend) (sql : string) (maxRows : Z) (q : string) :
  In (EvPostSql q) (fst (run (executeQuery b sql maxRows))) -> q = sql.
Proof.
  destruct (executeQuery_trace b sql maxRows) as [rest [-> Hrest]].
  intros [H|H]; [injection H as <-; reflexivity|].
  destruct Hrest as [->|[j [n [_ [->| ->]]]]]; [contradiction| |].
  - apply in_rounds in H. destruct H; discriminate.
  - apply in_app_or in H. destruct H as [H|[H|[]]]; [|discriminate].
    apply in_rounds in H. destruct H; discriminate.
Qed.

Lemma in_executeQuery_results (b : backend) (sql : string) (maxRows : Z) jobId lim :
  In (EvGetResults jobId lim) (fst (run (executeQuery b sql maxRows))) ->
  lim = Z.min maxRows 500.
Proof.
  destruct (executeQuery_trace b sql maxRows) as [rest [-> Hrest]].
  intros [H|H]; [discriminate|].
  destruct Hrest as [->|[j [n [_ [->| ->]]]]]; [contradiction| |].
  - apply in_rounds in H. destruct H; discriminate.
  - apply in_app_or in H. destruct H as [H|[H|[]]].
    + apply in_rounds in H. destruct H; discriminate.
    + injection H as _ <-. reflexivity.
Qed.

Lemma executeQuery_done_rows (b : backend) (sql : string) (maxRows : Z) (qr : QueryResult) :
  snd (run (executeQuery b sql maxRows)) = Done qr ->
  exists jobId data, get_results b jobId (Z.min maxRows 500) = HttpOk data /\
    rows qr = default [] (rd_rows data).
Proof.
  rewrite executeQuery_run.
  destruct (post_sql b sql) as [jobId|e]; [|discriminate].
  destruct (poll_loop b jobId maxAttempts 0 (Some "RUNNING") []) as [ptr po].
  destruct po as [st|e]; [|discriminate].
  destruct (negb (state_is st "COMPLETED")); [discriminate|].
  simpl. destruct (get_results b jobId (Z.min maxRows 500)) as [data|e] eqn:Hr;
    [|discriminate].
  intros H. injection H as <-. exists jobId, data. split; [exact Hr | reflexivity].
Qed.

Lemma buildTableReference_strings (ss : list string) :
  ss <> [] -> Forall (fun s => s <> EmptyString) ss ->
  Ident.buildTableReference (Some (map Ident.JStr ss)) =
  Ident.Ok (JS.join "." (map Ident.escapeIdentifier ss)).
Proof.
  intros Hne Hseg. destruct ss as [|s0 ss']; [congruence|].
  assert (Hb : existsb Ident.invalid_component (map Ident.JStr (s0 :: ss')) = false).
  { clear Hne. induction Hseg as [|x xs Hx Hxs IH]; [reflexivity|].
    simpl. destruct x as [|c x]; [congruence|]. exact IH. }
  unfold Ident.buildTableReference. simpl map at 1.
  change (Ident.JStr s0 :: map Ident.JStr ss') with (map Ident.JStr (s0 :: ss')).
  rewrite Hb, IdentProofs.map_escape_strings. reflexivity.
Qed.

(** [Search.searchCatalog] on a typed tree selects with [matches]. *)
Lemma search_filter (root : Search.root_response) (term : string)
    (Htyped : forallb Search.last_is_string (Search.traversal root) = true) :
  Search.searchCatalog root term = Some (filter (Search.matches term) (Search.traversal root)).
Proof.
  assert (Hall : forall cs, Forall (fun c => forall acc,
            forallb Search.last_is_string (Search.dfs c) = true ->
            Search.searchRecursive (JS.toLowerCase term) c acc =
            Some ((acc ++ filter (Search.matches term) (Search.dfs c))%list)) cs).
  { intros cs. apply Forall_forall. intros c _. apply SearchProofs.searchRecursive_ok. }
  destruct root as [e|[es|e]];
    unfold Search.searchCatalog, Search.search_all, Search.traversal in *;
    simpl Search.roots in *.
  - rewrite (SearchProofs.for_each_ok _ (Search.matches term) [e] [] (Hall _) Htyped).
    reflexivity.
  - rewrite (SearchProofs.for_each_ok _ (Search.matches term) es [] (Hall _) Htyped).
    reflexivity.
  - simpl in Htyped |- *. rewrite app_nil_r in Htyped |- *.
    rewrite (SearchProofs.searchRecursive_ok term e [] Htyped). reflexivity.
Qed.

(** [getTableSchema] and [previewTable] fail with the validation message
    of [buildTableReference], before any request, on an invalid path. *)
Theorem table_ops_invalid_path (sb : server_backend) (tablePath : list Ident.jsval)
    (m : string) (Hinvalid : Ident.buildTableReference (Some tablePath) = Ident.Error m) :
  run (getTableSchema sb tablePath) = ([], Throw (ErrPlain m)) /\
  run (previewTable sb tablePath) = ([], Throw (ErrPlain m)).
Proof.
  unfold run, getTableSchema, previewTable. rewrite Hinvalid. split; reflexivity.
Qed.

(** On a path of non-empty strings, [getTableSchema] runs exactly the
    zero-row query [SELECT * FROM "s1"."s2"... LIMIT 0] (500-row page)
    and returns only the schema of its result. *)
Theorem getTableSchema_valid (sb : server_backend) (ss : list string)
    (Hne : ss <> []) (Hseg : Forall (fun s => s <> EmptyString) ss) :
  let q := "SELECT * FROM " ++ JS.join "." (map Ident.escapeIdentifier ss) ++ " LIMIT 0" in
  run (getTableSchema sb (map Ident.JStr ss)) =
  (fst (run (executeQuery (sb_client sb) q 500)),
   match snd (run (executeQuery (sb_client sb) q 500)) with
   | Done r => Done (schema r)
   | Throw e => Throw e
   end).
Proof.
  intros q. unfold run, getTableSchema.
  rewrite (buildTableReference_strings ss Hne Hseg). cbn [of_result bind ret].
  fold q. unfold bind, ret.
  destruct (executeQuery (sb_client sb) q 500 []) as [tr [r|e]]; reflexivity.
Qed.

(** On a path of non-empty strings, [previewTable] submits
    [SELECT * FROM ... LIMIT 10], asks for a results page of 10 rows,
    and so returns at most 10 rows from a backend honouring the limit. *)
Theorem previewTable_valid (sb : server_backend) (ss : list string)
    (Hne : ss <> []) (Hseg : Forall (fun s => s <> EmptyString) ss)
    (Hhonour : forall jobId lim data, get_results (sb_client sb) jobId lim = HttpOk data ->
       (Z.of_nat (length (default [] (rd_rows data))) <= lim)%Z) :
  hd_error (fst (run (previewTable sb (map Ident.JStr ss)))) =
    Some (EvPostSql ("SELECT * FROM " ++ JS.join "." (map Ident.escapeIdentifier ss)
                     ++ " LIMIT 10")) /\
  (forall jobId lim, In (EvGetResults jobId lim) (fst (run (previewTable sb (map Ident.JStr ss)))) ->
     lim = 10%Z) /\
  (forall qr, snd (run (previewTable sb (map Ident.JStr ss))) = Done qr ->
     (length (rows qr) <= 10)%nat).
Proof.
  assert (Hrun : run (previewTable sb (map Ident.JStr ss)) =
    run (executeQuery (sb_client sb)
           ("SELECT * FROM " ++ JS.join "." (map Ident.escapeIdentifier ss) ++ " LIMIT 10") 10)).
  { unfold run, previewTable. rewrite (buildTableReference_strings ss Hne Hseg). reflexivity. }
  rewrite Hrun. split; [|split].
  - destruct (executeQuery_trace (sb_client sb)
      ("SELECT * FROM " ++ JS.join "." (map Ident.escapeIdentifier ss) ++ " LIMIT 10") 10)
      as [rest [-> _]]. reflexivity.
  - intros jobId lim H. apply in_executeQuery_results in H. rewrite H. reflexivity.
  - intros qr H. apply executeQuery_done_rows in H as [jobId [data [Hr ->]]].
    apply Hhonour in Hr. simpl in Hr. lia.
Qed.

(** [executeQuery] never lets an HTTP error with a response escape: its
    [catch] turns each into a plain error; one raised by the submission
    reads [Query failed: <message>. Status: <status>. Data: <data>]. *)
Theorem executeQuery_http_errors (b : backend) (sql : string) (maxRows : Z) :
  match snd (run (executeQuery b sql maxRows)) with
  | Throw (ErrHttp _ _ _) => False
  | _ => True
  end /\
  (forall m st d, post_sql b sql = HttpFail (ErrHttp m st d) ->
     run (executeQuery b sql maxRows) =
     ([EvPostSql sql],
      Throw (ErrPlain ("Query failed: " ++ m ++ ". Status: " ++ st ++ ". Data: " ++ d)))).
Proof.
  split.
  - rewrite executeQuery_run.
    assert (W : forall e, match wrap_error e with ErrHttp _ _ _ => False | _ => True end)
      by (intros [|]; exact I).
    destruct (post_sql b sql) as [jobId|e]; [|apply W].
    destruct (poll_loop b jobId maxAttempts 0 (Some "RUNNING") []) as [ptr [st|e]]; [|apply W].
    destruct (negb (state_is st "COMPLETED")); [exact I|].
    destruct (get_results b jobId (Z.min maxRows 500)); [exact I | apply W].
  - intros m st d H. rewrite executeQuery_run, H. reflexivity.
Qed.

Lemma bind_ret_l {A B} (a : A) (k : A -> M B) (tr : list event) :
  bind (ret a) k tr = k a tr.
Proof. reflexivity. Qed.

Lemma fst_catch_ret {A} (m : M A) (f : error -> A) (tr : list event) :
  fst (catch m (fun e => ret (f e)) tr) = fst (m tr).
Proof. unfold catch, ret. destruct (m tr) as [tr' [a|e]]; reflexivity. Qed.

Lemma snd_catch_ret {A} (m : M A) (f : error -> A) (tr : list event) :
  exists a, snd (catch m (fun e => ret (f e)) tr) = Done a.
Proof. unfold catch, ret. destruct (m tr) as [tr' [a|e]]; eexists; reflexivity. Qed.

Lemma fst_getCatalog (sb : server_backend) (p : option (list string)) (tr : list event) :
  fst (getCatalog sb p tr) = (tr ++ [EvGetCatalog (Url.getCatalogUrl p)])%list.
Proof. unfold getCatalog, bind, emit, of_http. destruct (get_catalog sb _); reflexivity. Qed.

Lemma fst_searchCatalog (sb : server_backend) (term : string) (tr : list event) :
  fst (searchCatalog sb term tr) = (tr ++ [EvGetCatalog (Url.getCatalogUrl None)])%list.
Proof.
  unfold searchCatalog, getCatalog, bind, emit, of_http, ret, throw.
  destruct (get_catalog sb _) as [root|e]; [|reflexivity].
  destruct (Search.searchCatalog root term); reflexivity.
Qed.

(** The handler turns every error into an [isError] response: the
    request itself never fails. *)
Theorem callTool_never_rejects (sb : server_backend) (name : string) (args : tool_args) :
  exists resp, snd (run (callTool sb name args)) = Done resp.
Proof. apply snd_catch_ret. Qed.

(** [sql_query] answers a missing or empty [sql] with
    [Error: sql is required], and a statement [isSelectQuery] refuses
    with [Error: Only SELECT queries are allowed], in both cases without
    any request to the backend. *)
Theorem sql_query_validation (sb : server_backend) (args : tool_args) :
  (truthy_string (arg_sql args) = None ->
   run (callTool sb "sql_query" args) = ([], Done (ToolError "Error: sql is required"))) /\
  (forall sql, truthy_string (arg_sql args) = Some sql -> Sql.isSelectQuery sql = false ->
   run (callTool sb "sql_query" args) =
   ([], Done (ToolError "Error: Only SELECT queries are allowed"))).
Proof.
  split.
  - intros H. unfold run, callTool. cbn -[executeQuery Sql.isSelectQuery truthy_string].
    rewrite H. reflexivity.
  - intros sql H Hs. unfold run, callTool. cbn -[executeQuery Sql.isSelectQuery truthy_string].
    rewrite H, Hs. reflexivity.
Qed.

(** [sql_query] asks for results pages of
    [min(min(max_rows || 1000, 1000), 500)] rows: never more than 500,
    and 500 when [max_rows] is absent. *)
Theorem sql_query_page_limit (sb : server_backend) (args : tool_args) (jobId : string) (lim : Z)
    (Hreq : In (EvGetResults jobId lim) (fst (run (callTool sb "sql_query" args)))) :
  lim = Z.min (tool_max_rows (arg_max_rows args)) 500 /\ (lim <= 500)%Z /\
  (arg_max_rows args = None -> lim = 500%Z).
Proof.
  assert (Hlim : lim = Z.min (tool_max_rows (arg_max_rows args)) 500).
  { revert Hreq. unfold run, callTool. rewrite fst_catch_ret.
    cbn -[executeQuery Sql.isSelectQuery truthy_string bind ret].
    destruct (truthy_string (arg_sql args)) as [sql|]; [|intros []].
    destruct (Sql.isSelectQuery sql); [|intros []]. cbn [negb].
    rewrite fst_bind_ret. apply in_executeQuery_results. }
  split; [exact Hlim|]. split; [lia|].
  intros Hn. rewrite Hlim, Hn. reflexivity.
Qed.

(** [schema_get] and [table_preview] answer a missing or non-array
    [table_path] with [Error: table_path is required and must be an array],
    and an empty array with [Error: Table path cannot be empty], in both
    cases without any request to the backend. *)
Theorem table_tools_path_errors (sb : server_backend) (name : string) (args : tool_args)
    (Hname : name = "schema_get" \/ name = "table_preview") :
  ((arg_table_path args = None \/ arg_table_path args = Some TPNotArray) ->
   run (callTool sb name args) =
   ([], Done (ToolError "Error: table_path is required and must be an array"))) /\
  (arg_table_path args = Some (TPArray []) ->
   run (callTool sb name args) = ([], Done (ToolError "Error: Table path cannot be empty"))).
Proof.
  split; [intros [H|H] | intros H];
    destruct Hname as [->| ->]; unfold run, callTool;
    cbn -[executeQuery Sql.isSelectQuery truthy_string bind getTableSchema previewTable];
    rewrite H; reflexivity.
Qed.

(** [search_catalog] answers a missing or empty [search_term] with
    [Error: search_term is required] without a request; otherwise it
    fetches the root catalog, and nothing else, and on a catalog tree
    whose non-empty paths end in strings it returns the entities of the
    tree, depth first, whose last path segment contains the term
    ignoring case. *)
Theorem search_catalog_tool (sb : server_backend) (args : tool_args) :
  (truthy_string (arg_search_term args) = None ->
   run (callTool sb "search_catalog" args) =
   ([], Done (ToolError "Error: search_term is required"))) /\
  (forall term, truthy_string (arg_search_term args) = Some term ->
   fst (run (callTool sb "search_catalog" args)) = [EvGetCatalog "/api/v3/catalog"] /\
   (forall root, get_catalog sb "/api/v3/catalog" = HttpOk root ->
      forallb Search.last_is_string (Search.traversal root) = true ->
      snd (run (callTool sb "search_catalog" args)) =
      Done (ToolJson (PSearch (filter (Search.matches term) (Search.traversal root)))))).
Proof.
  split.
  - intros H. unfold run, callTool. cbn -[truthy_string searchCatalog]. rewrite H. reflexivity.
  - intros term H. split.
    + unfold run, callTool. rewrite fst_catch_ret.
      cbn -[truthy_string searchCatalog bind ret]. rewrite H, fst_bind_ret.
      apply fst_searchCatalog.
    + intros root Hget Htyped.
      unfold run, callTool. cbn -[truthy_string Search.searchCatalog]. rewrite H.
      unfold searchCatalog, getCatalog.
      change (Url.getCatalogUrl None) with "/api/v3/catalog".
      unfold bind, emit, of_http, catch. rewrite Hget. cbn -[Search.searchCatalog].
      rewrite (search_filter root term Htyped). reflexivity.
Qed.

(** [explain_query] answers a missing or empty [sql] with
    [Error: sql is required], and a statement [isSelectQuery] refuses
    with [Error: Only SELECT queries can be explained], in both cases
    without any request to the backend. *)
Theorem explain_query_validation (sb : server_backend) (args : tool_args) :
  (truthy_string (arg_sql args) = None ->
   run (callTool sb "explain_query" args) = ([], Done (ToolError "Error: sql is required"))) /\
  (forall sql, truthy_string (arg_sql args) = Some sql -> Sql.isSelectQuery sql = false ->
   run (callTool sb "explain_query" args) =
   ([], Done (ToolError "Error: Only SELECT queries can be explained"))).
Proof.
  split.
  - intros H. unfold run, callTool. cbn -[executeQuery Sql.isSelectQuery truthy_string].
    rewrite H. reflexivity.
  - intros sql H Hs. unfold run, callTool.
    cbn -[executeQuery Sql.isSelectQuery truthy_string explainQuery].
    rewrite H. unfold explainQuery. rewrite Hs. reflexivity.
Qed.

(** A tool name outside the six known ones is answered with
    [Error: Unknown tool: <name>] without any request. *)
Theorem unknown_tool (sb : server_backend) (name : string) (args : tool_args)
    (Hunknown : ~ In name ["catalog_browse"; "schema_get"; "sql_query"; "table_preview";
                           "search_catalog"; "explain_query"]) :
  run (callTool sb name args) = ([], Done (ToolError ("Error: Unknown tool: " ++ name))).
Proof.
  assert (F : forall n, In n ["catalog_browse"; "schema_get"; "sql_query"; "table_preview";
                              "search_catalog"; "explain_query"] -> String.eqb name n = false).
  { intros n Hn. apply String.eqb_neq. intros ->. contradiction. }
  unfold run, callTool.
  rewrite (F "catalog_browse"), (F "schema_get"), (F "sql_query"), (F "table_preview"),
    (F "search_catalog"), (F "explain_query") by (simpl; tauto).
  reflexivity.
Qed.

(** Read-only by construction: every statement any tool submits is one
    [isSelectQuery] accepts, [EXPLAIN PLAN FOR] followed by one it
    accepts, or [SELECT * FROM <ref> LIMIT 0] or [LIMIT 10] around a
    reference [buildTableReference] built. *)
Theorem callTool_statements (sb : server_backend) (name : string) (args : tool_args) (q : string)
    (Hpost : In (EvPostSql q) (fst (run (callTool sb name args)))) :
  Sql.isSelectQuery q = true \/
  (exists s, q = "EXPLAIN PLAN FOR " ++ s /\ Sql.isSelectQuery s = true) \/
  (exists tablePath ref, Ident.buildTableReference (Some tablePath) = Ident.Ok ref /\
     (q = "SELECT * FROM " ++ ref ++ " LIMIT 0" \/ q = "SELECT * FROM " ++ ref ++ " LIMIT 10")).
Proof.
  revert Hpost. unfold run, callTool. rewrite fst_catch_ret.
  destruct (String.eqb name "catalog_browse"); cbv iota.
  { rewrite fst_bind_ret, fst_getCatalog. intros [H|[]]; discriminate. }
  destruct (String.eqb name "schema_get"); cbv iota.
  { destruct (arg_table_path args) as [[parts|]|]; simpl require_table_path;
      [rewrite bind_ret_l, fst_bind_ret | intros [] | intros []].
    unfold getTableSchema.
    destruct (Ident.buildTableReference (Some parts)) as [ref|m] eqn:Eb;
      simpl of_result; [rewrite bind_ret_l, fst_bind_ret | intros []].
    intros H. apply in_executeQuery_post in H. right; right. eauto. }
  destruct (String.eqb name "sql_query"); cbv iota.
  { destruct (truthy_string (arg_sql args)) as [sql|]; [|intros []].
    destruct (Sql.isSelectQuery sql) eqn:Es; [|intros []]. cbn [negb].
    rewrite fst_bind_ret. intros H. apply in_executeQuery_post in H. subst. left. exact Es. }
  destruct (String.eqb name "table_preview"); cbv iota.
  { destruct (arg_table_path args) as [[parts|]|]; simpl require_table_path;
      [rewrite bind_ret_l, fst_bind_ret | intros [] | intros []].
    unfold previewTable.
    destruct (Ident.buildTableReference (Some parts)) as [ref|m] eqn:Eb;
      simpl of_result; [rewrite bind_ret_l | intros []].
    intros H. apply in_executeQuery_post in H. right; right. eauto. }
  destruct (String.eqb name "search_catalog"); cbv iota.
  { destruct (truthy_string (arg_search_term args)) as [term|]; [|intros []].
    rewrite fst_bind_ret, fst_searchCatalog. intros [H|[]]; discriminate. }
  destruct (String.eqb name "explain_query"); cbv iota.
  { destruct (truthy_string (arg_sql args)) as [sql|]; [|intros []].
    rewrite fst_bind_ret. unfold explainQuery.
    destruct (Sql.isSelectQuery sql) eqn:Es; [|intros []]. cbn [negb].
    rewrite fst_bind_ret. intros H. apply in_executeQuery_post in H. subst.
    right; left. eauto. }
  intros [].
Qed.

(** [catalog_browse] requests exactly the URL [getCatalog] builds from
    [path] and answers the catalog data as JSON, or the error message of
    a failed request as an [isError] text. *)
Theorem catalog_browse_tool (sb : server_backend) (args : tool_args) :
  run (callTool sb "catalog_browse" args) =
  ([EvGetCatalog (Url.getCatalogUrl (arg_path args))],
   match get_catalog sb (Url.getCatalogUrl (arg_path args)) with
   | HttpOk r => Done (ToolJson (PCatalog r))
   | HttpFail e => Done (ToolError ("Error: " ++ error_message e))
   end).
Proof.
  unfold run, callTool. cbn -[getCatalog].
  unfold getCatalog, catch, bind, emit, of_http, ret, throw.
  destruct (get_catalog sb (Url.getCatalogUrl (arg_path args))); reflexivity.
Qed.

(** Each property above with a hypothesis, applied to a concrete input. *)

Lemma table_ops_invalid_path_witness :
  Ident.buildTableReference (Some []) = Ident.Error "Table path cannot be empty" /\
  run (getTableSchema Fixtures.demo_server []) =
    ([], Throw (ErrPlain "Table path cannot be empty")) /\
  run (previewTable Fixtures.demo_server []) =
    ([], Throw (ErrPlain "Table path cannot be empty")).
Proof.
  split; [reflexivity|]. apply (table_ops_invalid_path Fixtures.demo_server []). reflexivity.
Defined.

Lemma getTableSchema_valid_witness :
  ["src"; "Sales"] <> [] /\ Forall (fun s => s <> EmptyString) ["src"; "Sales"] /\
  run (getTableSchema Fixtures.demo_server (map Ident.JStr ["src"; "Sales"])) =
  (fst (run (executeQuery Fixtures.limited_backend
           ("SELECT * FROM " ++ JS.join "." (map Ident.escapeIdentifier ["src"; "Sales"])
            ++ " LIMIT 0") 500)),
   match snd (run (executeQuery Fixtures.limited_backend
           ("SELECT * FROM " ++ JS.join "." (map Ident.escapeIdentifier ["src"; "Sales"])
            ++ " LIMIT 0") 500)) with
   | Done r => Done (schema r)
   | Throw e => Throw e
   end).
Proof.
  split; [discriminate|]. split; [repeat constructor; discriminate|].
  apply (getTableSchema_valid Fixtures.demo_server ["src"; "Sales"]);
    [discriminate | repeat constructor; discriminate].
Defined.

Lemma limited_backend_honours (jobId : string) (lim : Z) (data : results_data) :
  get_results Fixtures.limited_backend jobId lim = HttpOk data ->
  (Z.of_nat (length (default [] (rd_rows data))) <= lim)%Z.
Proof.
  simpl. destruct (lim <? 0)%Z eqn:Hl; [discriminate|].
  intros H. injection H as <-. simpl. rewrite length_firstn.
  apply Z.ltb_ge in Hl. lia.
Qed.

Lemma previewTable_valid_witness :
  hd_error (fst (run (previewTable Fixtures.demo_server (map Ident.JStr ["src"; "Sales"])))) =
    Some (EvPostSql ("SELECT * FROM " ++ JS.join "." (map Ident.escapeIdentifier ["src"; "Sales"])
                     ++ " LIMIT 10")) /\
  (forall jobId lim, In (EvGetResults jobId lim)
       (fst (run (previewTable Fixtures.demo_server (map Ident.JStr ["src"; "Sales"])))) ->
     lim = 10%Z) /\
  (forall qr, snd (run (previewTable Fixtures.demo_server (map Ident.JStr ["src"; "Sales"]))) =
     Done qr -> (length (rows qr) <= 10)%nat).
Proof.
  apply (previewTable_valid Fixtures.demo_server ["src"; "Sales"]);
    [discriminate | repeat constructor; discriminate | exact limited_backend_honours].
Defined.

Lemma sql_query_page_limit_witness :
  In (EvGetResults "job-1" 500%Z)
     (fst (run (callTool Fixtures.demo_server "sql_query" (Fixtures.sql_args "SELECT 1")))) /\
  (500%Z = Z.min (tool_max_rows (arg_max_rows (Fixtures.sql_args "SELECT 1"))) 500 /\
   (500 <= 500)%Z /\
   (arg_max_rows (Fixtures.sql_args "SELECT 1") = None -> 500%Z = 500%Z)).
Proof.
  assert (H : In (EvGetResults "job-1" 500%Z)
     (fst (run (callTool Fixtures.demo_server "sql_query" (Fixtures.sql_args "SELECT 1")))))
    by (vm_compute; auto 10).
  split; [exact H|]. exact (sql_query_page_limit _ _ _ _ H).
Defined.

Lemma table_tools_path_errors_witness :
  ("schema_get" = "schema_get" \/ "schema_get" = "table_preview") /\
  ((arg_table_path Fixtures.no_args = None \/ arg_table_path Fixtures.no_args = Some TPNotArray) ->
   run (callTool Fixtures.demo_server "schema_get" Fixtures.no_args) =
   ([], Done (ToolError "Error: table_path is required and must be an array"))) /\
  (arg_table_path Fixtures.no_args = Some (TPArray []) ->
   run (callTool Fixtures.demo_server "schema_get" Fixtures.no_args) =
   ([], Done (ToolError "Error: Table path cannot be empty"))).
Proof.
  split; [left; reflexivity|].
  apply (table_tools_path_errors Fixtures.demo_server "schema_get" Fixtures.no_args).
  left; reflexivity.
Defined.

Lemma unknown_tool_witness :
  ~ In "drop_table" ["catalog_browse"; "schema_get"; "sql_query"; "table_preview";
                     "search_catalog"; "explain_query"] /\
  run (callTool Fixtures.demo_server "drop_table" Fixtures.no_args) =
  ([], Done (ToolError ("Error: Unknown tool: " ++ "drop_table"))).
Proof.
  assert (H : ~ In "drop_table" ["catalog_browse"; "schema_get"; "sql_query"; "table_preview";
                                 "search_catalog"; "explain_query"]).
  { simpl. intros H. repeat (destruct H as [H|H]; [discriminate|]). exact H. }
  split; [exact H|]. exact (unknown_tool _ _ _ H).
Defined.

Lemma callTool_statements_witness :
  In (EvPostSql "EXPLAIN PLAN FOR SELECT 1")
     (fst (run (callTool Fixtures.demo_server "explain_query" (Fixtures.sql_args "SELECT 1")))) /\
  (Sql.isSelectQuery "EXPLAIN PLAN FOR SELECT 1" = true \/
   (exists s, "EXPLAIN PLAN FOR SELECT 1" = "EXPLAIN PLAN FOR " ++ s /\
              Sql.isSelectQuery s = true) \/
   (exists tablePath ref, Ident.buildTableReference (Some tablePath) = Ident.Ok ref /\
      ("EXPLAIN PLAN FOR SELECT 1" = "SELECT * FROM " ++ ref ++ " LIMIT 0" \/
       "EXPLAIN PLAN FOR SELECT 1" = "SELECT * FROM " ++ ref ++ " LIMIT 10"))).
Proof.
  assert (H : In (EvPostSql "EXPLAIN PLAN FOR SELECT 1")
     (fst (run (callTool Fixtures.demo_server "explain_query" (Fixtures.sql_args "SELECT 1")))))
    by (vm_compute; auto).
  split; [exact H|]. exact (callTool_statements _ _ _ _ H).
Defined.

End ServerProofs.

(* ------------------------------------------------------------------ *)
(** ** Case and leading whitespace in [isSelectQuery] *)

Module SqlCaseProofs.
Import JS Sql.

Lemma lower_char_ws (c : ascii) : is_ws (lower_char c) = is_ws c.
Proof. destruct c as [[] [] [] [] [] [] [] []]; reflexivity. Qed.

Lemma lower_char_idem (c : ascii) : lower_char (lower_char c) = lower_char c.
Proof. destruct c as [[] [] [] [] [] [] [] []]; reflexivity. Qed.

(** The delimiters of comments have no case. *)
Lemma lower_char_delims (c : ascii) :
  Ascii.eqb (lower_char c) "-" = Ascii.eqb c "-" /\
  Ascii.eqb (lower_char c) "/" = Ascii.eqb c "/" /\
  Ascii.eqb (lower_char c) "*" = Ascii.eqb c "*" /\
  Ascii.eqb (lower_char c) nl = Ascii.eqb c nl.
Proof. destruct c as [[] [] [] [] [] [] [] []]; repeat split. Qed.

Lemma trim_start_lower (s : string) : trim_start (toLowerCase s) = toLowerCase (trim_start s).
Proof.
  induction s as [|c r IH]; [reflexivity|]. simpl.
  rewrite lower_char_ws. destruct (is_ws c); [exact IH | reflexivity].
Qed.

Lemma rev_str_lower (s acc : string) :
  rev_str (toLowerCase s) (toLowerCase acc) = toLowerCase (rev_str s acc).
Proof.
  revert acc. induction s as [|c r IH]; intros acc; [reflexivity|].
  simpl. apply (IH (String c acc)).
Qed.

Lemma rev_str_lower0 (s : string) :
  rev_str (toLowerCase s) EmptyString = toLowerCase (rev_str s EmptyString).
Proof. exact (rev_str_lower s EmptyString). Qed.

Lemma trim_lower (s : string) : trim (toLowerCase s) = toLowerCase (trim s).
Proof.
  unfold trim, trim_end. rewrite trim_start_lower, rev_str_lower0, trim_start_lower.
  apply rev_str_lower0.
Qed.

Lemma length_lower (s : string) : String.length (toLowerCase s) = String.length s.
Proof. induction s as [|c r IH]; simpl; congruence. Qed.

Lemma after_nl_lower (s : string) :
  after_nl (toLowerCase s) = option_map toLowerCase (after_nl s).
Proof.
  induction s as [|c r IH]; [reflexivity|]. simpl.
  destruct (lower_char_delims c) as [_ [_ [_ ->]]].
  destruct (Ascii.eqb c nl); [reflexivity | exact IH].
Qed.

(** A step of the comment-removal scans: peel the constructors, then
    close with the hypothesis on the rest of the scan. *)
Local Ltac leaf IH :=
  simpl; f_equal; try reflexivity;
  match goal with |- _ = toLowerCase (_ _ ?y) => exact (IH y) end.

Lemma replace_line_comments_cons (f : nat) (c : ascii) (r : string) :
  replace_line_comments (S f) (String c r) =
  if Ascii.eqb c "-" then
    match r with
    | String c' r' =>
      if Ascii.eqb c' "-" then
        match after_nl r' with
        | Some rest => String nl (replace_line_comments f rest)
        | None => String c (replace_line_comments f r)
        end
      else String c (replace_line_comments f r)
    | EmptyString => String c (replace_line_comments f r)
    end
  else String c (replace_line_comments f r).
Proof.
  simpl. destruct (Ascii.eqb c "-"); [|reflexivity].
  destruct r as [|c' r']; [reflexivity|].
  destruct c' as [[] [] [] [] [] [] [] []]; reflexivity.
Qed.

Lemma replace_line_comments_lower (f : nat) (s : string) :
  replace_line_comments f (toLowerCase s) = toLowerCase (replace_line_comments f s).
Proof.
  revert s. induction f as [|f IH]; intros s; [reflexivity|].
  destruct s as [|c r]; [reflexivity|].
  change (toLowerCase (String c r)) with (String (lower_char c) (toLowerCase r)).
  rewrite !replace_line_comments_cons.
  destruct (lower_char_delims c) as [-> _].
  destruct (Ascii.eqb c "-"); [|leaf IH].
  destruct r as [|c' r']; [leaf IH|].
  change (toLowerCase (String c' r')) with (String (lower_char c') (toLowerCase r')).
  destruct (lower_char_delims c') as [-> _].
  destruct (Ascii.eqb c' "-").
  - rewrite after_nl_lower. destruct (after_nl r'); leaf IH.
  - leaf IH.
Qed.

Lemma after_close_cons (c : ascii) (r : string) :
  after_close (String c r) =
  if Ascii.eqb c "*" then
    match r with
    | String c' r' => if Ascii.eqb c' "/" then Some r' else after_close r
    | EmptyString => after_close r
    end
  else after_close r.
Proof.
  destruct c as [[] [] [] [] [] [] [] []]; try reflexivity.
  destruct r as [|c' r']; [reflexivity|].
  destruct c' as [[] [] [] [] [] [] [] []]; reflexivity.
Qed.

Lemma after_close_lower (s : string) :
  after_close (toLowerCase s) = option_map toLowerCase (after_close s).
Proof.
  induction s as [|c r IH]; [reflexivity|].
  change (toLowerCase (String c r)) with (String (lower_char c) (toLowerCase r)).
  rewrite !after_close_cons.
  destruct (lower_char_delims c) as [_ [_ [-> _]]].
  destruct (Ascii.eqb c "*"); [|exact IH].
  destruct r as [|c' r']; [exact IH|].
  change (toLowerCase (String c' r')) with (String (lower_char c') (toLowerCase r')).
  destruct (lower_char_delims c') as [_ [-> _]].
  destruct (Ascii.eqb c' "/"); [reflexivity | exact IH].
Qed.

Lemma replace_block_comments_cons (f : nat) (c : ascii) (r : string) :
  replace_block_comments (S f) (String c r) =
  if Ascii.eqb c "/" then
    match r with
    | String c' r' =>
      if Ascii.eqb c' "*" then
        match after_close r' with
        | Some rest => replace_block_comments f rest
        | None => String c (replace_block_comments f r)
        end
      else String c (replace_block_comments f r)
    | EmptyString => String c (replace_block_comments f r)
    end
  else String c (replace_block_comments f r).
Proof.
  simpl. destruct (Ascii.eqb c "/"); [|reflexivity].
  destruct r as [|c' r']; [reflexivity|].
  destruct c' as [[] [] [] [] [] [] [] []]; reflexivity.
Qed.

Lemma replace_block_comments_lower (f : nat) (s : string) :
  replace_block_comments f (toLowerCase s) = toLowerCase (replace_block_comments f s).
Proof.
  revert s. induction f as [|f IH]; intros s; [reflexivity|].
  destruct s as [|c r]; [reflexivity|].
  change (toLowerCase (String c r)) with (String (lower_char c) (toLowerCase r)).
  rewrite !replace_block_comments_cons.
  destruct (lower_char_delims c) as [_ [-> _]].
  destruct (Ascii.eqb c "/"); [|leaf IH].
  destruct r as [|c' r']; [leaf IH|].
  change (toLowerCase (String c' r')) with (String (lower_char c') (toLowerCase r')).
  destruct (lower_char_delims c') as [_ [_ [-> _]]].
  destruct (Ascii.eqb c' "*").
  - rewrite after_close_lower. destruct (after_close r'); leaf IH.
  - leaf IH.
Qed.

Lemma starts_select_lower (s : string) : starts_select (toLowerCase s) = starts_select s.
Proof.
  destruct s as [|c1 [|c2 [|c3 [|c4 [|c5 [|c6 [|c7 s]]]]]]]; try reflexivity.
  simpl. rewrite !lower_char_idem, lower_char_ws. reflexivity.
Qed.

(** [isSelectQuery] ignores case ([/^SELECT\s/i]; comment delimiters and
    whitespace have no case), so lowering a statement never changes the
    verdict; nor does a leading whitespace, which [trim] removes. *)
Theorem isSelectQuery_case_and_indent (s : string) :
  isSelectQuery (toLowerCase s) = isSelectQuery s /\
  (forall w, is_ws w = true -> isSelectQuery (String w s) = isSelectQuery s).
Proof.
  split.
  - unfold isSelectQuery. cbv zeta.
    rewrite trim_lower, length_lower, replace_line_comments_lower, length_lower,
      replace_block_comments_lower, trim_lower, starts_select_lower.
    reflexivity.
  - intros w Hw. unfold isSelectQuery, trim.
    change (trim_start (String w s)) with (if is_ws w then trim_start s else String w s).
    rewrite Hw. reflexivity.
Qed.

End SqlCaseProofs.

(* ------------------------------------------------------------------ *)
(** ** The alphabet of [encodeURIComponent] *)

Module UrlAlphabetProofs.
Import Url.

Lemma has_char_in (c : ascii) (s : string) :
  has_char c s = true -> In c (list_ascii_of_string s).
Proof.
  induction s as [|d r IH]; simpl; [discriminate|].
  intros H. apply orb_true_iff in H as [H|H].
  - left. apply Ascii.eqb_eq in H. exact H.
  - right. exact (IH H).
Qed.

Lemma encode_char_alphabet (c : ascii) :
  forallb (fun d => unreserved d || Ascii.eqb d "%" || existsb (Ascii.eqb d) (map hex_digit (seq 0 16)))
    (list_ascii_of_string (encode_char c)) = true.
Proof. destruct c as [[] [] [] [] [] [] [] []]; vm_compute; reflexivity. Qed.

(** Every character [encodeURIComponent] outputs is an unreserved one,
    [%], or an upper-case hexadecimal digit: a catalog path segment
    never brings a slash, [?], [#] or space into the URL. *)
Theorem encodeURIComponent_alphabet (s : string) (c : ascii)
    (Hin : has_char c (encodeURIComponent s) = true) :
  (unreserved c || Ascii.eqb c "%" || existsb (Ascii.eqb c) (map hex_digit (seq 0 16))) = true.
Proof.
  induction s as [|x r IH]; [discriminate|].
  simpl in Hin. rewrite UrlProofs.has_char_app in Hin.
  apply orb_true_iff in Hin as [H|H]; [|exact (IH H)].
  apply has_char_in in H.
  exact (proj1 (forallb_forall _ _) (encode_char_alphabet x) c H).
Qed.

Lemma encodeURIComponent_alphabet_witness :
  has_char "%" (encodeURIComponent "a/b") = true /\
  (unreserved "%" || Ascii.eqb "%" "%" || existsb (Ascii.eqb "%") (map hex_digit (seq 0 16))) = true.
Proof.
  assert (H : has_char "%" (encodeURIComponent "a/b") = true) by reflexivity.
  split; [exact H|]. exact (encodeURIComponent_alphabet "a/b" "%" H).
Defined.

End UrlAlphabetProofs.

(* ------------------------------------------------------------------ *)
(** ** Tests from spec section 8 *)

Module Tests.
Import Client Fixtures.

Example sel1 : Sql.isSelectQuery "SELECT 1" = true. Proof. reflexivity. Qed.
Example sel2 : Sql.isSelectQuery ("  -- comment" ++ String Sql.nl "SELECT 1") = true.
Proof. reflexivity. Qed.
Example sel3 : Sql.isSelectQuery "/* x */ select * from t" = true. Proof. reflexivity. Qed.
Example sel4 : Sql.isSelectQuery "DROP TABLE t" = false. Proof. reflexivity. Qed.
Example sel5 : Sql.isSelectQuery "SELECTX" = false. Proof. reflexivity. Qed.
Example sel6 : Sql.isSelectQuery "SELECT --c" = true. Proof. reflexivity. Qed.

Example esc1 : Ident.escapeIdentifier ("a" ++ String Ident.dq "b")
  = String Ident.dq ("a" ++ String Ident.dq (String Ident.dq ("b" ++ String Ident.dq EmptyString))).
Proof. reflexivity. Qed.
Example tref1 : Ident.buildTableReference (Some [Ident.JStr "s"; Ident.JStr "t"])
  = Ident.Ok (Ident.escapeIdentifier "s" ++ "." ++ Ident.escapeIdentifier "t").
Proof. reflexivity. Qed.
Example url1 : Url.getCatalogUrl (Some ["a"; "b/c"]) = "/api/v3/catalog/a/b%2Fc". Proof. reflexivity. Qed.
Example url2 : Url.getCatalogUrl_joined (Some ["a"; "b/c"]) = "/api/v3/catalog/a%2Fb%2Fc". Proof. reflexivity. Qed.
Example url3 : Url.encodeURIComponent (String (ascii_of_nat 233) " ~") = "%C3%A9%20~". Proof. reflexivity. Qed.
Example sel7 : Sql.isSelectQuery (String Sql.nl "SELECT" ++ String Sql.nl "-- c") = true.
Proof. reflexivity. Qed.
Example sel8 : Sql.isSelectQuery_spec ("  -- comment" ++ String Sql.nl "SELECT 1") = true.
Proof. reflexivity. Qed.
Example sel9 : Sql.isSelectQuery "/* only a comment */" = false. Proof. reflexivity. Qed.
Example tref2 : Ident.buildTableReference (Some []) = Ident.Error "Table path cannot be empty".
Proof. reflexivity. Qed.
Example tref3 : Ident.buildTableReference (Some [Ident.JStr "s"; Ident.JStr EmptyString])
  = Ident.Error "Invalid table path component".
Proof. reflexivity. Qed.
Example explain_delete :
  run (explainQuery running_backend "DELETE FROM t")
  = ([], Throw (ErrPlain "Only SELECT queries can be explained")).
Proof. reflexivity. Qed.
Example explain_select :
  run (explainQuery unbounded_backend "SELECT 1")
  = ([EvPostSql "EXPLAIN PLAN FOR SELECT 1"; EvSleep 1000; EvGetJob "job-1";
      EvGetResults "job-1" 500],
     Done ("1" ++ String Sql.nl ("2" ++ String Sql.nl "3"))).
Proof. reflexivity. Qed.

End Tests.
